(** * Shallow embedding of the invite, reaction and cascading-delete CRUD
    operations of [app/crud.py] (ending_collection_backend).

    The relational store is a record of tables, each table a list of rows
    in insertion (primary-key) order, so that SQLAlchemy's [.first()] is the
    first matching row of the list.  A request works on a session copy of the
    committed state; [db.commit()] makes the session state the committed one,
    and a session that is closed without commit leaves the committed state
    as it was.  Raised exceptions are the [Raised] outcome.  Timestamps
    ([datetime.utcnow()]) are integers, identifiers are naturals, tokens and
    URLs are strings. *)

From Stdlib Require Import Ascii String List ZArith Bool Lia.
Import ListNotations.

(** ** Rows (app/models.py) *)

Inductive Role := Poster | Viewer.

Definition role_eqb (a b : Role) : bool :=
  match a, b with
  | Poster, Poster | Viewer, Viewer => true
  | _, _ => false
  end.

(** [UserFamilyGroup]: primary key (user_id, group_id). *)
Record UserFamilyGroup := mkMembership {
  ufg_user_id : nat;
  ufg_group_id : nat;
  ufg_role : Role
}.

(** [GroupInvite]: the columns of [GroupInviteResponse] (app/schemas.py);
    the ORM class itself is imported by crud.py but absent from
    app/models.py. *)
Record GroupInvite := mkInvite {
  invite_id : nat;
  inv_group_id : nat;
  token : string;
  inviter_user_id : option nat;
  invited_user_id : option nat;
  inv_created_at : Z;
  expires_at : option Z;
  used_at : option Z;
  used : bool
}.

Inductive ReactionType := Like | Heart | Smile | Sad | Agree.

Definition reaction_type_eqb (a b : ReactionType) : bool :=
  match a, b with
  | Like, Like | Heart, Heart | Smile, Smile | Sad, Sad | Agree, Agree => true
  | _, _ => false
  end.

Record MessageReaction := mkReaction {
  reaction_id : nat;
  r_message_id : nat;
  r_user_id : nat;
  reaction_type : ReactionType;
  r_created_at : Z
}.

Record Message := mkMessage {
  message_id : nat;
  msg_thread_id : nat;
  msg_user_id : nat;
  parent_message_id : option nat;
  content : string
}.

Record MessageAttachment := mkAttachment {
  attachment_id : nat;
  att_message_id : nat;
  attachment_url : string
}.

Record Thread := mkThread {
  thread_id : nat;
  th_item_id : nat
}.

Record Item := mkItem {
  item_id : nat;
  item_user_id : nat;
  item_group_id : nat;
  item_name : string
}.

Record ItemImage := mkImage {
  image_id : nat;
  img_item_id : nat;
  image_url : string
}.

(** The tables the operations below read or write, with the next
    auto-increment values of the tables they insert into. *)
Record DB := mkDB {
  user_family_groups : list UserFamilyGroup;
  group_invites : list GroupInvite;
  message_reactions : list MessageReaction;
  messages : list Message;
  message_attachments : list MessageAttachment;
  threads : list Thread;
  items : list Item;
  item_images : list ItemImage;
  next_invite_id : nat;
  next_reaction_id : nat
}.

(** Outcome of a call: a returned value, or an exception that escapes it. *)
Inductive Result (A : Type) := Ok (a : A) | Raised.
Arguments Ok {A} a.
Arguments Raised {A}.

(** Record updates written out. *)
Definition set_invites (d : DB) (l : list GroupInvite) : DB :=
  mkDB (user_family_groups d) l (message_reactions d) (messages d)
       (message_attachments d) (threads d) (items d) (item_images d)
       (next_invite_id d) (next_reaction_id d).

Definition set_memberships (d : DB) (l : list UserFamilyGroup) : DB :=
  mkDB l (group_invites d) (message_reactions d) (messages d)
       (message_attachments d) (threads d) (items d) (item_images d)
       (next_invite_id d) (next_reaction_id d).

(** ** Invite workflow (crud.py lines 291-379) *)

(** [create_group_invite]: [token] is the drawn [str(uuid.uuid4())],
    [expires] the caller's argument ([None] by default), [now] the
    server-side [created_at].  The new row is unused, with no invited user
    (the column defaults of the missing ORM class, as the spec's data model
    describes a fresh invite). *)
Definition create_group_invite (d : DB) (group_id inviter : nat)
    (expires : option Z) (tok : string) (now : Z) : GroupInvite * DB :=
  let inv := mkInvite (next_invite_id d) group_id tok (Some inviter) None
                      now expires None false in
  (inv,
   mkDB (user_family_groups d) (group_invites d ++ [inv]) (message_reactions d)
        (messages d) (message_attachments d) (threads d) (items d)
        (item_images d) (S (next_invite_id d)) (next_reaction_id d)).

Definition get_group_invite_by_token (d : DB) (t : string) : option GroupInvite :=
  find (fun i => String.eqb (token i) t) (group_invites d).

(** [invite.expires_at and invite.expires_at < datetime.utcnow()] *)
Definition is_expired (inv : GroupInvite) (now : Z) : bool :=
  match expires_at inv with
  | Some e => Z.ltb e now
  | None => false
  end.

Definition find_membership (d : DB) (user group : nat) : option UserFamilyGroup :=
  find (fun m => Nat.eqb (ufg_user_id m) user && Nat.eqb (ufg_group_id m) group)
       (user_family_groups d).

(** The pending writes of an [accept_group_invite] session: the new
    membership row (when there was none) and the three invite columns set
    before [db.commit()]. *)
Record AcceptPlan := mkPlan {
  plan_invite : GroupInvite;
  plan_membership : option UserFamilyGroup
}.

(** The invite object after [invite.used = True], [invite.used_at = now],
    [invite.invited_user_id = user]. *)
Definition consume_invite (inv : GroupInvite) (user : nat) (now : Z) : GroupInvite :=
  mkInvite (invite_id inv) (inv_group_id inv) (token inv) (inviter_user_id inv)
           (Some user) (inv_created_at inv) (expires_at inv) (Some now) true.

(** Everything [accept_group_invite] does before [db.commit()]: the reads
    and the decision.  [now] is the request's clock reading (both
    [utcnow()] calls of one call). *)
Definition accept_plan (d : DB) (t : string) (user : nat) (now : Z)
    : option AcceptPlan :=
  match get_group_invite_by_token d t with
  | None => None
  | Some inv =>
      if used inv || is_expired inv now then None
      else
        let newm :=
          match find_membership d user (inv_group_id inv) with
          | Some _ => None
          | None => Some (mkMembership user (inv_group_id inv) Viewer)
          end in
        Some (mkPlan (consume_invite inv user now) newm)
  end.

(** [UPDATE group_invites SET used, used_at, invited_user_id WHERE invite_id]:
    only the three changed columns are written. *)
Definition update_invite_row (p : GroupInvite) (i : GroupInvite) : GroupInvite :=
  if Nat.eqb (invite_id i) (invite_id p)
  then mkInvite (invite_id i) (inv_group_id i) (token i) (inviter_user_id i)
                (invited_user_id p) (inv_created_at i) (expires_at i)
                (used_at p) (used p)
  else i.

(** [db.commit()] of the plan: the INSERT (refused on a duplicate primary
    key) and the UPDATE (refused when the row is gone) in one transaction. *)
Definition commit_plan (p : AcceptPlan) (d : DB) : option DB :=
  let d1 :=
    match plan_membership p with
    | None => Some d
    | Some m =>
        match find_membership d (ufg_user_id m) (ufg_group_id m) with
        | Some _ => None
        | None => Some (set_memberships d (user_family_groups d ++ [m]))
        end
    end in
  match d1 with
  | None => None
  | Some d1 =>
      if existsb (fun i => Nat.eqb (invite_id i) (invite_id (plan_invite p)))
                 (group_invites d1)
      then Some (set_invites d1 (map (update_invite_row (plan_invite p))
                                     (group_invites d1)))
      else None
  end.

(** [accept_group_invite]: [None] when no invite, or used, or expired;
    otherwise the committed invite. *)
Definition accept_group_invite (d : DB) (t : string) (user : nat) (now : Z)
    : Result (option GroupInvite) * DB :=
  match accept_plan d t user now with
  | None => (Ok None, d)
  | Some p =>
      match commit_plan p d with
      | None => (Raised, d)
      | Some d' => (Ok (Some (plan_invite p)), d')
      end
  end.

(** Two requests redeeming concurrently, interleaved so that both sessions
    read before either commits: each commits its own pending writes, the
    first then the second, on the state left by the first. *)
Definition accept_interleaved (d : DB) (t1 : string) (u1 : nat) (now1 : Z)
    (t2 : string) (u2 : nat) (now2 : Z)
    : Result (option GroupInvite) * Result (option GroupInvite) * DB :=
  let p1 := accept_plan d t1 u1 now1 in
  let p2 := accept_plan d t2 u2 now2 in
  let '(r1, d1) :=
    match p1 with
    | None => (Ok None, d)
    | Some p => match commit_plan p d with
                | None => (Raised, d)
                | Some d' => (Ok (Some (plan_invite p)), d')
                end
    end in
  let '(r2, d2) :=
    match p2 with
    | None => (Ok None, d1)
    | Some p => match commit_plan p d1 with
                | None => (Raised, d1)
                | Some d' => (Ok (Some (plan_invite p)), d')
                end
    end in
  (r1, r2, d2).

(** [revoke_group_invite] *)
Definition revoke_group_invite (d : DB) (id : nat) : bool * DB :=
  let kept := filter (fun i => negb (Nat.eqb (invite_id i) id)) (group_invites d) in
  if Nat.eqb (length kept) (length (group_invites d)) then (false, d)
  else (true, set_invites d kept).

(** ** Reactions (crud.py lines 70-104) *)

Definition reaction_rows (d : DB) (msg user : nat) : list MessageReaction :=
  filter (fun r => Nat.eqb (r_message_id r) msg && Nat.eqb (r_user_id r) user)
         (message_reactions d).

Definition set_reactions (d : DB) (l : list MessageReaction) : DB :=
  mkDB (user_family_groups d) (group_invites d) l (messages d)
       (message_attachments d) (threads d) (items d) (item_images d)
       (next_invite_id d) (next_reaction_id d).

(** [UPDATE message_reactions SET reaction_type WHERE reaction_id] *)
Definition update_reaction_type (id : nat) (ty : ReactionType)
    (r : MessageReaction) : MessageReaction :=
  if Nat.eqb (reaction_id r) id
  then mkReaction (reaction_id r) (r_message_id r) (r_user_id r) ty (r_created_at r)
  else r.

(** [create_reaction]: look up the first row of the pair; same type: return
    it; other type: update its type and commit; none: insert with the next
    id and the server-side [created_at]. *)
Definition create_reaction (d : DB) (msg user : nat) (ty : ReactionType)
    (now : Z) : MessageReaction * DB :=
  match reaction_rows d msg user with
  | existing :: _ =>
      if reaction_type_eqb (reaction_type existing) ty then (existing, d)
      else
        (mkReaction (reaction_id existing) (r_message_id existing)
                    (r_user_id existing) ty (r_created_at existing),
         set_reactions d (map (update_reaction_type (reaction_id existing) ty)
                              (message_reactions d)))
  | [] =>
      let r := mkReaction (next_reaction_id d) msg user ty now in
      (r, mkDB (user_family_groups d) (group_invites d)
               (message_reactions d ++ [r]) (messages d)
               (message_attachments d) (threads d) (items d) (item_images d)
               (next_invite_id d) (S (next_reaction_id d)))
  end.

(** [delete_reaction]: bulk DELETE of the pair's rows, then commit. *)
Definition delete_reaction (d : DB) (msg user : nat) : DB :=
  set_reactions d
    (filter (fun r => negb (Nat.eqb (r_message_id r) msg && Nat.eqb (r_user_id r) user))
            (message_reactions d)).

(** ** Cascading deletes (crud.py lines 48-66 and 248-266) *)

(** What a request does outside and inside the database, in order. *)
Inductive Event :=
| BlobDelete (url : string)          (* delete_blob_by_url called *)
| Warning (url : string)             (* logger.warning after a failed delete *)
| SqlDeleteAttachments (msg : nat)
| SqlDeleteMessage (msg : nat)
| SqlDeleteItem (item : nat)
| Commit
| Rollback.

(** The committed database, the object store and the request log. *)
Record World := mkWorld {
  db : DB;
  blobs : list string;
  events : list Event
}.

Section CascadingDelete.

(** Which blob deletions fail (storage error, missing blob, bad
    configuration): [delete_blob_by_url] raises on these URLs. *)
Variable storage_fails : string -> bool.

(** One [try: delete_blob_by_url(url) except Exception: logger.warning].
    The object store is abstracted as the list of URLs it serves, and a
    successful call removes the URL's own entry.  services/blob.py actually
    deletes the blob named [path.lstrip("/message-attachments/")] in the
    container [message-attachments] (see [blob_name_of_path] below), which
    for some URLs is another blob, so statements about which blobs remain
    hold of this abstraction only; the events and the database rows are
    modelled as the code has them. *)
Definition try_delete_blob (w : World) (url : string) : World :=
  if storage_fails url
  then mkWorld (db w) (blobs w) (events w ++ [BlobDelete url; Warning url])
  else mkWorld (db w) (filter (fun b => negb (String.eqb b url)) (blobs w))
               (events w ++ [BlobDelete url]).

Definition blob_events (url : string) : list Event :=
  if storage_fails url then [BlobDelete url; Warning url] else [BlobDelete url].

(** [DELETE FROM message_attachments WHERE message_id = msg] *)
Definition sql_delete_attachments (d : DB) (msg : nat) : DB :=
  mkDB (user_family_groups d) (group_invites d) (message_reactions d)
       (messages d)
       (filter (fun a => negb (Nat.eqb (att_message_id a) msg)) (message_attachments d))
       (threads d) (items d) (item_images d) (next_invite_id d) (next_reaction_id d).

(** [DELETE] of a message row: [message_reactions.message_id] is
    [ON DELETE CASCADE]; [message_attachments.message_id] has no ON DELETE
    action, so a remaining attachment refuses the delete. *)
Definition sql_delete_message (d : DB) (msg : nat) : option DB :=
  if existsb (fun a => Nat.eqb (att_message_id a) msg) (message_attachments d)
  then None
  else Some (mkDB (user_family_groups d) (group_invites d)
              (filter (fun r => negb (Nat.eqb (r_message_id r) msg)) (message_reactions d))
              (filter (fun m => negb (Nat.eqb (message_id m) msg)) (messages d))
              (message_attachments d) (threads d) (items d) (item_images d)
              (next_invite_id d) (next_reaction_id d)).

Definition find_message (d : DB) (msg : nat) : option Message :=
  find (fun m => Nat.eqb (message_id m) msg) (messages d).

Definition attachments_of (d : DB) (msg : nat) : list MessageAttachment :=
  filter (fun a => Nat.eqb (att_message_id a) msg) (message_attachments d).

(** [delete_message]: blob deletions for the attachments, then the
    attachment rows and the message row in the session, committed only when
    the message exists. *)
Definition delete_message (w : World) (msg : nat) : Result (option Message) * World :=
  let atts := attachments_of (db w) msg in
  let w1 := fold_left try_delete_blob (map attachment_url atts) w in
  let s1 := sql_delete_attachments (db w1) msg in
  let ev1 := events w1 ++ [SqlDeleteAttachments msg] in
  match find_message s1 msg with
  | Some m =>
      match sql_delete_message s1 msg with
      | Some s2 => (Ok (Some m),
                    mkWorld s2 (blobs w1) (ev1 ++ [SqlDeleteMessage msg; Commit]))
      | None => (Raised, mkWorld (db w1) (blobs w1) (ev1 ++ [SqlDeleteMessage msg; Rollback]))
      end
  | None => (Ok None, mkWorld (db w1) (blobs w1) ev1)
  end.

Definition images_of (d : DB) (i : nat) : list ItemImage :=
  filter (fun im => Nat.eqb (img_item_id im) i) (item_images d).

(** [DELETE FROM items WHERE item_id = i]: [item_images.item_id] and
    [threads.item_id] are [ON DELETE CASCADE]; [messages.thread_id] has no
    ON DELETE action, so a message in a cascaded thread refuses the whole
    statement.  Returns the row count and the new state. *)
Definition sql_delete_item (d : DB) (i : nat) : option (nat * DB) :=
  let gone_threads := filter (fun t => Nat.eqb (th_item_id t) i) (threads d) in
  if existsb (fun m => existsb (fun t => Nat.eqb (thread_id t) (msg_thread_id m))
                               gone_threads) (messages d)
  then None
  else
    let kept := filter (fun it => negb (Nat.eqb (item_id it) i)) (items d) in
    Some (length (items d) - length kept,
          mkDB (user_family_groups d) (group_invites d) (message_reactions d)
               (messages d) (message_attachments d)
               (filter (fun t => negb (Nat.eqb (th_item_id t) i)) (threads d))
               kept
               (filter (fun im => negb (Nat.eqb (img_item_id im) i)) (item_images d))
               (next_invite_id d) (next_reaction_id d)).

(** [delete_item]: blob deletions for the images, then the bulk delete and
    commit, returning [result > 0]; a database error rolls back and is
    re-raised. *)
Definition delete_item (w : World) (i : nat) : Result bool * World :=
  let w1 := fold_left try_delete_blob (map image_url (images_of (db w) i)) w in
  match sql_delete_item (db w1) i with
  | Some (n, d') => (Ok (Nat.ltb 0 n),
                     mkWorld d' (blobs w1) (events w1 ++ [SqlDeleteItem i; Commit]))
  | None => (Raised, mkWorld (db w1) (blobs w1) (events w1 ++ [SqlDeleteItem i; Rollback]))
  end.

End CascadingDelete.

(** ** Requests as steps of the whole store *)

Inductive Op :=
| OpIssueInvite (group inviter : nat) (expires : option Z) (tok : string) (now : Z)
| OpAcceptInvite (tok : string) (user : nat) (now : Z)
| OpRevokeInvite (id : nat)
| OpSetReaction (msg user : nat) (ty : ReactionType) (now : Z)
| OpRemoveReaction (msg user : nat)
| OpDeleteMessage (msg : nat)
| OpDeleteItem (item : nat).

Section Requests.

Variable storage_fails : string -> bool.

Definition with_db (w : World) (d : DB) : World := mkWorld d (blobs w) (events w).

Definition step (w : World) (o : Op) : World :=
  match o with
  | OpIssueInvite g a e t n => with_db w (snd (create_group_invite (db w) g a e t n))
  | OpAcceptInvite t u n => with_db w (snd (accept_group_invite (db w) t u n))
  | OpRevokeInvite id => with_db w (snd (revoke_group_invite (db w) id))
  | OpSetReaction m u ty n => with_db w (snd (create_reaction (db w) m u ty n))
  | OpRemoveReaction m u => with_db w (delete_reaction (db w) m u)
  | OpDeleteMessage m => snd (delete_message storage_fails w m)
  | OpDeleteItem i => snd (delete_item storage_fails w i)
  end.

Definition run (w : World) (ops : list Op) : World := fold_left step ops w.

End Requests.

(** Issue requests that draw token [t]. *)
Definition draws_token (t : string) (o : Op) : bool :=
  match o with
  | OpIssueInvite _ _ _ t' _ => String.eqb t' t
  | _ => false
  end.

(** Every invite carrying token [t] is consumed. *)
Definition token_spent (d : DB) (t : string) : Prop :=
  forall i, In i (group_invites d) -> token i = t -> used i = true.

(** The rows a successful redemption adds to [user_family_groups]. *)
Definition new_membership_rows (d : DB) (user group : nat) : list UserFamilyGroup :=
  match find_membership d user group with
  | Some _ => []
  | None => [mkMembership user group Viewer]
  end.

(** The state a successful redemption commits: both writes at once. *)
Definition accepted_db (d : DB) (inv : GroupInvite) (user : nat) (now : Z) : DB :=
  set_invites
    (set_memberships d (user_family_groups d ++
                        new_membership_rows d user (inv_group_id inv)))
    (map (update_invite_row (consume_invite inv user now)) (group_invites d)).

(** ** Concrete stores *)

Definition empty_db : DB := mkDB [] [] [] [] [] [] [] [] 1 1.

(** Group 1 with its poster (user 1), user 3 a poster of group 2, and
    invite 1 of group 1 by user 1, token "tok", expiring at time 100. *)
Definition invite1 : GroupInvite :=
  mkInvite 1 1 "tok" (Some 1) None 0 (Some 100%Z) None false.

Definition db_invite : DB :=
  mkDB [mkMembership 1 1 Poster; mkMembership 3 2 Poster] [invite1] [] [] [] [] [] [] 2 1.

(** Item 1 ("watch", images u1 and u2, thread 1 without messages) and
    item 2 ("vase", image u3, thread 2 holding message 5 with attachments
    a1 and a2 and one reaction). *)
Definition db_items : DB :=
  mkDB [] [] [mkReaction 1 5 1 Like 0] [mkMessage 5 2 1 None "hi"]
       [mkAttachment 1 5 "a1"; mkAttachment 2 5 "a2"]
       [mkThread 1 1; mkThread 2 2]
       [mkItem 1 1 1 "watch"; mkItem 2 1 1 "vase"]
       [mkImage 11 1 "u1"; mkImage 12 1 "u2"; mkImage 13 2 "u3"] 1 2.

Definition world_items : World :=
  mkWorld db_items ["u1"; "u2"; "u3"; "a1"; "a2"]%string [].

(** The object store refuses to delete u1 and a1. *)
Definition fails_u1_a1 (url : string) : bool :=
  String.eqb url "u1" || String.eqb url "a1".

(** ** Upload naming and attachment typing (main.py lines 316-340, 147-152) *)

Inductive AttachmentType := AttImage | AttVoice | AttVideo | AttFile.

(** [content_type = file.content_type or "application/octet-stream"]
    followed by the [startswith] chain of [upload_attachment]; the empty
    string is falsy in Python. *)
Definition attachment_type_of (content_type : option string) : AttachmentType :=
  let ct := match content_type with
            | Some s => if String.eqb s EmptyString then "application/octet-stream"%string else s
            | None => "application/octet-stream"%string
            end in
  if String.prefix "image/" ct then AttImage
  else if String.prefix "audio/" ct then AttVoice
  else if String.prefix "video/" ct then AttVideo
  else AttFile.

(** Python's [str.split(sep)] with a one-character separator: every
    occurrence splits, empty pieces are kept. *)
Fixpoint py_split (sep : Ascii.ascii) (s : string) : list string :=
  match s with
  | EmptyString => [EmptyString]
  | String c s' =>
      let parts := py_split sep s' in
      if Ascii.eqb c sep then EmptyString :: parts
      else match parts with
           | p :: ps => String c p :: ps
           | [] => [String c EmptyString]
           end
  end.

(** [sep in s] *)
Fixpoint has_char (sep : Ascii.ascii) (s : string) : bool :=
  match s with
  | EmptyString => false
  | String c s' => Ascii.eqb c sep || has_char sep s'
  end.

Definition dot : Ascii.ascii := "."%char.

(** [filename.split(".")[-1] if "." in filename else ""] *)
Definition file_extension (filename : string) : string :=
  if has_char dot filename then last (py_split dot filename) EmptyString else EmptyString.

(** [f"{uuid.uuid4()}.{file_extension}" if file_extension else str(uuid.uuid4())],
    [uuid] being the drawn identifier. *)
Definition unique_filename (uuid filename : string) : string :=
  let ext := file_extension filename in
  if String.eqb ext EmptyString then uuid
  else String.append uuid (String dot ext).

(** ** Blob name of a stored URL (services/blob.py) *)

Definition CONTAINER_NAME : string := "message-attachments".

(** Python's [str.lstrip(chars)]: drops leading characters that belong to
    the SET [chars]. *)
Fixpoint py_lstrip (chars s : string) : string :=
  match s with
  | EmptyString => EmptyString
  | String c s' => if has_char c chars then py_lstrip chars s' else s
  end.

(** [parsed_url.path.lstrip(f"/{CONTAINER_NAME}/")] for the path of the URL. *)
Definition blob_name_of_path (path : string) : string :=
  py_lstrip (String "/" (String.append CONTAINER_NAME "/")) path.

(** ** Batch reaction lookup (main.py lines 395-399) *)

Definition is_digit (c : Ascii.ascii) : bool :=
  Nat.leb 48 (Ascii.nat_of_ascii c) && Nat.leb (Ascii.nat_of_ascii c) 57.

(** [str.isdigit()] on ASCII text: non-empty and all digits. *)
Definition py_isdigit (s : string) : bool :=
  match s with
  | EmptyString => false
  | _ => forallb is_digit (list_ascii_of_string s)
  end.

(** [int(s)] on a digit string. *)
Definition py_int (s : string) : nat :=
  fold_left (fun acc c => acc * 10 + (Ascii.nat_of_ascii c - 48)) (list_ascii_of_string s) 0.

(** Query text made of ASCII characters only: the text on which
    [py_isdigit] and [py_int] agree with Python's [str.isdigit] and [int]
    (on other text [isdigit] also accepts digits such as superscripts, on
    which [int] raises). *)
Definition is_ascii_text (s : string) : bool :=
  forallb (fun c => Nat.ltb (Ascii.nat_of_ascii c) 128) (list_ascii_of_string s).

(** [[int(i) for i in ids.split(",") if i.isdigit()]] *)
Definition parse_message_ids (ids : string) : list nat :=
  map py_int (filter py_isdigit (py_split ","%char ids)).

(** Decimal writing of a natural, as a client sends ids. *)
Fixpoint decimal_digits (fuel n : nat) : list nat :=
  match fuel with
  | 0 => []
  | S f => if Nat.ltb n 10 then [n] else decimal_digits f (n / 10) ++ [n mod 10]
  end.

Definition decimal (n : nat) : string :=
  string_of_list_ascii (map (fun d => Ascii.ascii_of_nat (48 + d)) (decimal_digits (S n) n)).

(** ** Further operations of the application *)

(** The prefix [f"/{CONTAINER_NAME}/"] of a blob URL's path. *)
Definition container_prefix : string := String "/" (String.append CONTAINER_NAME "/").

(** Message 5 with reactions of users 2 and 3, message 6 with one of user 2. *)
Definition db_reactions : DB :=
  mkDB [] [] [mkReaction 1 5 2 Like 0; mkReaction 2 5 3 Heart 0; mkReaction 3 6 2 Sad 1]
       [] [] [] [] [] 1 4.

(** [create_item] (crud.py lines 150-190): the item, its image and its
    thread (titled after the item, a column not modelled) are added in one
    commit; [iid], [imid] and [tid] are the ids the database assigns.  A
    primary-key clash, or a second thread for the item ([threads.item_id]
    is unique), refuses the commit: the session rolls back and re-raises. *)
Definition create_item (d : DB) (user group : nat) (name url : string) (iid imid tid : nat)
    : Result Item * DB :=
  let it := mkItem iid user group name in
  if existsb (fun x => Nat.eqb (item_id x) iid) (items d)
     || existsb (fun im => Nat.eqb (image_id im) imid) (item_images d)
     || existsb (fun t => Nat.eqb (thread_id t) tid || Nat.eqb (th_item_id t) iid) (threads d)
  then (Raised, d)
  else (Ok it,
        mkDB (user_family_groups d) (group_invites d) (message_reactions d) (messages d)
             (message_attachments d) (threads d ++ [mkThread tid iid]) (items d ++ [it])
             (item_images d ++ [mkImage imid iid url]) (next_invite_id d) (next_reaction_id d)).

(** ** Accounts (main.py signup, crud.py update_user) *)

(** [users]: [email] is unique in the schema, [username] is not. *)
Record User := mkUser {
  user_id : nat;
  email : string;
  password_hash : string;
  username : string;
  photoURL : option string
}.

Record Users := mkUsers { users : list User; next_user_id : nat }.

Section Accounts.

Variable get_password_hash : string -> string.

(** [signup]: 400 when a user has the username or the email; otherwise a
    new row.  [photo_url] is [blob_client.url] when a photo was uploaded. *)
Definition signup (s : Users) (name mail password : string) (photo_url : option string)
    : Result User * Users :=
  match find (fun x => String.eqb (username x) name || String.eqb (email x) mail) (users s) with
  | Some _ => (Raised, s)
  | None =>
      let u := mkUser (next_user_id s) mail (get_password_hash password) name photo_url in
      (Ok u, mkUsers (users s ++ [u]) (S (next_user_id s)))
  end.

(** Python truthiness of an optional string argument. *)
Definition truthy (o : option string) : option string :=
  match o with
  | Some v => if String.eqb v EmptyString then None else Some v
  | None => None
  end.

(** [UPDATE users ... WHERE user_id = uid] *)
Definition set_user (uid : nat) (u' : User) (x : User) : User :=
  if Nat.eqb (user_id x) uid then u' else x.

(** [update_user]: [None] for an unknown id; otherwise each truthy argument
    replaces its column ([password] through [get_password_hash]),
    [photo_url] is the uploaded blob's URL when a photo was given, and the
    commit is refused (raising) when another user has the new email. *)
Definition update_user (s : Users) (uid : nat) (name mail password : option string)
    (photo_url : option string) : Result (option User) * Users :=
  match find (fun x => Nat.eqb (user_id x) uid) (users s) with
  | None => (Ok None, s)
  | Some x =>
      let u' := mkUser (user_id x)
                       (match truthy mail with Some m => m | None => email x end)
                       (match truthy password with Some p => get_password_hash p | None => password_hash x end)
                       (match truthy name with Some n => n | None => username x end)
                       (match photo_url with Some p => Some p | None => photoURL x end) in
      if existsb (fun y => negb (Nat.eqb (user_id y) uid) && String.eqb (email y) (email u')) (users s)
      then (Raised, s)
      else (Ok (Some u'), mkUsers (map (set_user uid u') (users s)) (next_user_id s))
  end.

End Accounts.

(** ** Chat search (rag_utils.py search_chat_vector) *)

(** Python's [l[i]]: a negative index counts from the end, an index out
    of range raises. *)
Definition py_getitem {A : Type} (l : list A) (i : Z) : option A :=
  if Z.leb 0 i then nth_error l (Z.to_nat i)
  else if Z.leb (- Z.of_nat (length l)) i then nth_error l (Z.to_nat (Z.of_nat (length l) + i))
  else None.

(** [[{"content": texts[i]} for i in I[0] if i < len(texts)]] over the
    row [I[0]] of FAISS neighbour indices. *)
Fixpoint search_results (texts : list string) (I : list Z) : Result (list string) :=
  match I with
  | [] => Ok []
  | i :: I' =>
      if Z.ltb i (Z.of_nat (length texts)) then
        match py_getitem texts i with
        | None => Raised
        | Some t => match search_results texts I' with
                    | Ok r => Ok (t :: r)
                    | Raised => Raised
                    end
        end
      else search_results texts I'
  end.

(** ** Market prices (main.py get_market_prices) *)

(** A [reference_market_items] row. *)
Record MarketRow := mkMarketRow {
  mr_ref_item_id : nat;
  mr_condition_rank : option string;
  market_price : nat
}.

Definition ALL_RANKS : string := "全て".

Definition RANKS : list string := ["S"; "A"; "B"; "C"; "D"]%string.

(** [if condition_rank and condition_rank != "全て": rank == condition_rank]
    [elif condition_rank == "全て": rank is NULL or in S, A, B, C, D],
    else no filter. *)
Definition rank_filter (condition_rank : option string) (r : MarketRow) : bool :=
  match condition_rank with
  | Some c =>
      if negb (String.eqb c EmptyString) && negb (String.eqb c ALL_RANKS) then
        match mr_condition_rank r with Some x => String.eqb x c | None => false end
      else if String.eqb c ALL_RANKS then
        match mr_condition_rank r with
        | None => true
        | Some x => existsb (String.eqb x) RANKS
        end
      else true
  | None => true
  end.

Definition get_market_prices (rows : list MarketRow) (ref_item_id : nat)
    (condition_rank : option string) : list nat :=
  map market_price
    (filter (fun r => Nat.eqb (mr_ref_item_id r) ref_item_id && rank_filter condition_rank r) rows).

(** Prices of the rows of [ref_item_id] without a rank. *)
Definition unranked_prices (rows : list MarketRow) (ref_item_id : nat) : list nat :=
  map market_price
    (filter (fun r => Nat.eqb (mr_ref_item_id r) ref_item_id &&
                      match mr_condition_rank r with None => true | Some _ => false end) rows).

(** Two users, alice and bob. *)
Definition users_demo : Users :=
  mkUsers [mkUser 1 "a@example.com" "h1" "alice" None;
           mkUser 2 "b@example.com" "h2" "bob" None] 3.

(** ** Lemmas on the invite workflow *)

Example accept_fresh :
  accept_group_invite db_invite "tok" 2 10 =
  (Ok (Some (mkInvite 1 1 "tok" (Some 1) (Some 2) 0 (Some 100%Z) (Some 10%Z) true)),
   mkDB [mkMembership 1 1 Poster; mkMembership 3 2 Poster; mkMembership 2 1 Viewer]
        [mkInvite 1 1 "tok" (Some 1) (Some 2) 0 (Some 100%Z) (Some 10%Z) true]
        [] [] [] [] [] [] 2 1).
Proof. reflexivity. Qed.

Example accept_expired : accept_group_invite db_invite "tok" 2 101 = (Ok None, db_invite).
Proof. reflexivity. Qed.

Example accept_at_expiry : fst (accept_group_invite db_invite "tok" 2 100) <> Ok None.
Proof. discriminate. Qed.

Lemma find_token_map_update (p : GroupInvite) (t : string) (l : list GroupInvite) :
  find (fun i => String.eqb (token i) t) (map (update_invite_row p) l) =
  option_map (update_invite_row p) (find (fun i => String.eqb (token i) t) l).
Proof.
  induction l as [|i l IH]; simpl; [reflexivity|].
  assert (Htok : token (update_invite_row p i) = token i)
    by (unfold update_invite_row; destruct (Nat.eqb _ _); reflexivity).
  rewrite Htok. destruct (String.eqb (token i) t); [reflexivity | exact IH].
Qed.

Lemma update_invite_row_self (inv : GroupInvite) (u : nat) (now : Z) :
  update_invite_row (consume_invite inv u now) inv = consume_invite inv u now.
Proof.
  unfold update_invite_row, consume_invite; simpl.
  rewrite Nat.eqb_refl. reflexivity.
Qed.

Lemma existsb_invite_id_in (l : list GroupInvite) (inv : GroupInvite) (id : nat) :
  In inv l -> invite_id inv = id ->
  existsb (fun i => Nat.eqb (invite_id i) id) l = true.
Proof.
  intros Hin Hid. apply existsb_exists. exists inv. split; [exact Hin|].
  apply Nat.eqb_eq. exact Hid.
Qed.

Lemma get_by_token_in (d : DB) (t : string) (inv : GroupInvite) :
  get_group_invite_by_token d t = Some inv -> In inv (group_invites d).
Proof. intros H. apply (find_some _ _ H). Qed.

Lemma accept_success (d : DB) (t : string) (u : nat) (now : Z) (inv : GroupInvite) :
  get_group_invite_by_token d t = Some inv ->
  used inv = false -> is_expired inv now = false ->
  accept_group_invite d t u now =
  (Ok (Some (consume_invite inv u now)), accepted_db d inv u now).
Proof.
  intros Hget Hused Hexp.
  pose proof (get_by_token_in d t inv Hget) as Hin.
  unfold accept_group_invite, accept_plan, accepted_db, new_membership_rows.
  rewrite Hget, Hused, Hexp; simpl.
  assert (Hex : existsb (fun i => Nat.eqb (invite_id i) (invite_id inv))
                   (group_invites d) = true)
    by exact (existsb_invite_id_in _ inv _ Hin eq_refl).
  destruct (find_membership d u (inv_group_id inv)) eqn:Hm; simpl.
  - unfold commit_plan; simpl. rewrite Hex, app_nil_r. destruct d; reflexivity.
  - unfold commit_plan; simpl. rewrite Hm; simpl. rewrite Hex. reflexivity.
Qed.

Lemma accept_failure (d : DB) (t : string) (u : nat) (now : Z) :
  accept_plan d t u now = None -> accept_group_invite d t u now = (Ok None, d).
Proof. intros H. unfold accept_group_invite. rewrite H. reflexivity. Qed.

Lemma get_by_token_accepted (d : DB) (t : string) (u : nat) (now : Z) (inv : GroupInvite) :
  get_group_invite_by_token d t = Some inv ->
  get_group_invite_by_token (accepted_db d inv u now) t = Some (consume_invite inv u now).
Proof.
  intros H. unfold get_group_invite_by_token, accepted_db in *; simpl.
  rewrite find_token_map_update, H; simpl.
  f_equal. apply update_invite_row_self.
Qed.

Lemma find_app {A : Type} (f : A -> bool) (l1 l2 : list A) :
  find f (l1 ++ l2) =
  match find f l1 with Some x => Some x | None => find f l2 end.
Proof.
  induction l1 as [|x l1 IH]; simpl; [reflexivity|].
  destruct (f x); [reflexivity | exact IH].
Qed.

Lemma find_membership_app_other (d : DB) (u g u' : nat) :
  find_membership d u g = None -> u' <> u ->
  find_membership (set_memberships d (user_family_groups d ++ [mkMembership u' g Viewer])) u g
  = None.
Proof.
  unfold find_membership; simpl. intros H Hne.
  rewrite find_app, H; simpl.
  destruct (Nat.eqb u' u) eqn:E; [apply Nat.eqb_eq in E; congruence | reflexivity].
Qed.

Lemma find_membership_accepted (d : DB) (inv : GroupInvite) (u : nat) (now : Z) :
  find_membership (accepted_db d inv u now) u (inv_group_id inv) <> None.
Proof.
  unfold accepted_db, new_membership_rows, find_membership in *; simpl.
  destruct (find _ (user_family_groups d)) eqn:Hf.
  - rewrite app_nil_r, Hf. discriminate.
  - rewrite find_app, Hf; simpl. rewrite !Nat.eqb_refl. discriminate.
Qed.

(** ** Claim theorems *)

(** C1 (counterexample): user 3 already belongs to group 2, yet redeeming
    the valid invite of group 1 succeeds instead of failing with Conflict;
    and an unknown token and a used token yield the very same failure
    value [Ok None]. *)
Lemma accept_invite_outcomes_cex :
  find_membership db_invite 3 2 <> None /\
  fst (accept_group_invite db_invite "tok" 3 10) =
    Ok (Some (consume_invite invite1 3 10)) /\
  fst (accept_group_invite db_invite "unknown" 2 10) =
    fst (accept_group_invite (snd (accept_group_invite db_invite "tok" 2 10)) "tok" 4 10).
Proof. split; [discriminate | split; reflexivity]. Qed.

(** C1 (amended): accept-invite returns the single failure value [None]
    and changes nothing when no invite has the token, when the invite is
    used, or when it has an expiry earlier than now; it does not look at
    the user's other groups: otherwise it returns the invite with
    used = true, used_at = now, invited_user = the user, that row is
    stored, and a viewer membership of the user in the invite's group
    exists afterwards (added unless already there). *)
Theorem accept_group_invite_outcomes (d : DB) (t : string) (u : nat) (now : Z) :
  (get_group_invite_by_token d t = None ->
   accept_group_invite d t u now = (Ok None, d)) /\
  (forall inv, get_group_invite_by_token d t = Some inv -> used inv = true ->
   accept_group_invite d t u now = (Ok None, d)) /\
  (forall inv e, get_group_invite_by_token d t = Some inv ->
   expires_at inv = Some e -> (e < now)%Z ->
   accept_group_invite d t u now = (Ok None, d)) /\
  (forall inv, get_group_invite_by_token d t = Some inv ->
   used inv = false -> is_expired inv now = false ->
   exists inv' d',
     accept_group_invite d t u now = (Ok (Some inv'), d') /\
     used inv' = true /\ used_at inv' = Some now /\
     invited_user_id inv' = Some u /\ inv_group_id inv' = inv_group_id inv /\
     invite_id inv' = invite_id inv /\
     get_group_invite_by_token d' t = Some inv' /\
     user_family_groups d' =
       user_family_groups d ++ new_membership_rows d u (inv_group_id inv) /\
     find_membership d' u (inv_group_id inv) <> None).
Proof.
  split; [|split; [|split]].
  - intros H. apply accept_failure. unfold accept_plan. rewrite H. reflexivity.
  - intros inv H Hu. apply accept_failure. unfold accept_plan.
    rewrite H, Hu. reflexivity.
  - intros inv e H He Hlt. apply accept_failure. unfold accept_plan.
    rewrite H. unfold is_expired. rewrite He.
    apply Z.ltb_lt in Hlt. rewrite Hlt, orb_true_r. reflexivity.
  - intros inv H Hu He.
    exists (consume_invite inv u now), (accepted_db d inv u now).
    rewrite (accept_success d t u now inv H Hu He).
    split; [reflexivity|]. do 5 (split; [reflexivity|]).
    split; [apply get_by_token_accepted; exact H|].
    split; [reflexivity|].
    unfold accepted_db, new_membership_rows, find_membership in *; simpl.
    destruct (find _ (user_family_groups d)) eqn:Hf.
    + rewrite app_nil_r, Hf. discriminate.
    + rewrite find_app, Hf; simpl. rewrite !Nat.eqb_refl. discriminate.
Qed.

(** Witness for C1: the successful branch on the concrete store. *)
Lemma accept_group_invite_outcomes_witness :
  get_group_invite_by_token db_invite "tok" = Some invite1 /\
  used invite1 = false /\ is_expired invite1 10 = false /\
  exists inv' d',
     accept_group_invite db_invite "tok" 2 10 = (Ok (Some inv'), d') /\
     used inv' = true /\ used_at inv' = Some 10%Z /\
     invited_user_id inv' = Some 2 /\ inv_group_id inv' = inv_group_id invite1 /\
     invite_id inv' = invite_id invite1 /\
     get_group_invite_by_token d' "tok" = Some inv' /\
     user_family_groups d' =
       user_family_groups db_invite ++ new_membership_rows db_invite 2 (inv_group_id invite1) /\
     find_membership d' 2 (inv_group_id invite1) <> None.
Proof.
  split; [reflexivity | split; [reflexivity | split; [reflexivity |]]].
  destruct (accept_group_invite_outcomes db_invite "tok" 2 10) as [_ [_ [_ H4]]].
  apply (H4 invite1); reflexivity.
Defined.

(** C2 (counterexample): two redemptions of "tok" by users 2 and 4 that
    both read before either commits both succeed, and two viewer
    memberships are created. *)
Lemma accept_concurrent_cex :
  accept_interleaved db_invite "tok" 2 10 "tok" 4 11 =
  (Ok (Some (consume_invite invite1 2 10)), Ok (Some (consume_invite invite1 4 11)),
   mkDB [mkMembership 1 1 Poster; mkMembership 3 2 Poster;
         mkMembership 2 1 Viewer; mkMembership 4 1 Viewer]
        [consume_invite invite1 4 11] [] [] [] [] [] [] 2 1).
Proof. reflexivity. Qed.

(** C2 (amended): a redemption that runs after a successful redemption of
    the same token fails with [None] and changes nothing, whoever redeems
    and whenever.  But accept-invite takes no lock on the invite: when two
    redemptions of a valid token by two users who are not yet members both
    read the invite before either commits, both succeed, both viewer
    memberships are created and the invite row is written twice (the
    second write, naming the second user, is the one that stays). *)
Theorem accept_group_invite_race :
  (forall (d d1 : DB) (t : string) (u u' : nat) (now now' : Z) (inv' : GroupInvite),
     accept_group_invite d t u now = (Ok (Some inv'), d1) ->
     accept_group_invite d1 t u' now' = (Ok None, d1)) /\
  (forall (d : DB) (t : string) (inv : GroupInvite) (u1 u2 : nat) (now1 now2 : Z),
     get_group_invite_by_token d t = Some inv ->
     used inv = false -> is_expired inv now1 = false -> is_expired inv now2 = false ->
     find_membership d u1 (inv_group_id inv) = None ->
     find_membership d u2 (inv_group_id inv) = None ->
     u1 <> u2 ->
     exists d2,
       accept_interleaved d t u1 now1 t u2 now2 =
         (Ok (Some (consume_invite inv u1 now1)), Ok (Some (consume_invite inv u2 now2)), d2) /\
       user_family_groups d2 = user_family_groups d ++
         [mkMembership u1 (inv_group_id inv) Viewer; mkMembership u2 (inv_group_id inv) Viewer] /\
       group_invites d2 =
         map (update_invite_row (consume_invite inv u2 now2))
             (map (update_invite_row (consume_invite inv u1 now1)) (group_invites d)) /\
       get_group_invite_by_token d2 t = Some (consume_invite inv u2 now2)).
Proof.
  split.
  - intros d d1 t u u' now now' inv' Hacc.
    destruct (get_group_invite_by_token d t) as [inv|] eqn:Hget.
    + destruct (used inv) eqn:Hu.
      * rewrite accept_failure in Hacc by (unfold accept_plan; rewrite Hget, Hu; reflexivity).
        discriminate.
      * destruct (is_expired inv now) eqn:He.
        -- rewrite accept_failure in Hacc
             by (unfold accept_plan; rewrite Hget, Hu, He; reflexivity).
           discriminate.
        -- rewrite (accept_success d t u now inv Hget Hu He) in Hacc.
           injection Hacc as _ <-.
           apply accept_failure. unfold accept_plan.
           rewrite (get_by_token_accepted d t u now inv Hget). reflexivity.
    + rewrite accept_failure in Hacc by (unfold accept_plan; rewrite Hget; reflexivity).
      discriminate.
  - intros d t inv u1 u2 now1 now2 Hget Hu He1 He2 Hm1 Hm2 Hne.
    pose proof (get_by_token_in d t inv Hget) as Hin.
    set (g := inv_group_id inv).
    set (d1 := set_invites (set_memberships d (user_family_groups d ++ [mkMembership u1 g Viewer]))
                 (map (update_invite_row (consume_invite inv u1 now1)) (group_invites d))).
    exists (set_invites (set_memberships d1 (user_family_groups d1 ++ [mkMembership u2 g Viewer]))
              (map (update_invite_row (consume_invite inv u2 now2)) (group_invites d1))).
    split; [|split; [simpl; rewrite <- app_assoc; reflexivity | split; [reflexivity|]]].
    + assert (Hin1 : In (update_invite_row (consume_invite inv u1 now1) inv)
                        (map (update_invite_row (consume_invite inv u1 now1)) (group_invites d)))
        by (apply in_map; exact Hin).
      rewrite update_invite_row_self in Hin1.
      assert (Hex1 := existsb_invite_id_in _ _ _ Hin1 eq_refl). simpl in Hex1.
      assert (Hex0 := existsb_invite_id_in _ _ _ Hin eq_refl).
      assert (E : find_membership d1 u2 g = None)
        by (apply find_membership_app_other; [exact Hm2 | exact Hne]).
      unfold d1, g in E.
      unfold accept_interleaved, accept_plan, commit_plan.
      rewrite Hget, Hu, He1, He2. rewrite Hm1, Hm2. simpl.
      rewrite Hm1. simpl. rewrite Hex0. simpl.
      rewrite E. simpl. rewrite Hex1. reflexivity.
    + unfold get_group_invite_by_token in *. cbn [d1 set_invites group_invites].
      rewrite !find_token_map_update, Hget. cbn [option_map].
      rewrite update_invite_row_self. f_equal.
      unfold update_invite_row, consume_invite. cbn. rewrite Nat.eqb_refl. reflexivity.
Qed.

(** Witness for C2. *)
Lemma accept_group_invite_race_witness :
  get_group_invite_by_token db_invite "tok" = Some invite1 /\
  find_membership db_invite 2 1 = None /\ find_membership db_invite 4 1 = None /\
  accept_group_invite (snd (accept_group_invite db_invite "tok" 2 10)) "tok" 2 11 =
    (Ok None, snd (accept_group_invite db_invite "tok" 2 10)) /\
  exists d2,
     accept_interleaved db_invite "tok" 2 10 "tok" 4 11 =
       (Ok (Some (consume_invite invite1 2 10)), Ok (Some (consume_invite invite1 4 11)), d2) /\
     user_family_groups d2 = user_family_groups db_invite ++
       [mkMembership 2 1 Viewer; mkMembership 4 1 Viewer] /\
     group_invites d2 =
       map (update_invite_row (consume_invite invite1 4 11))
           (map (update_invite_row (consume_invite invite1 2 10)) (group_invites db_invite)) /\
     get_group_invite_by_token d2 "tok" = Some (consume_invite invite1 4 11).
Proof.
  split; [reflexivity | split; [reflexivity | split; [reflexivity | split]]].
  - apply (proj1 accept_group_invite_race db_invite _ "tok"%string 2 2 10%Z 11%Z
             (consume_invite invite1 2 10)).
    reflexivity.
  - refine (proj2 accept_group_invite_race db_invite "tok"%string invite1 2 4 10%Z 11%Z
              eq_refl eq_refl eq_refl eq_refl eq_refl eq_refl _).
    discriminate.
Defined.

(** C3 (counterexample): user 1, already the poster of group 1, redeems
    the invite of group 1: the call succeeds and consumes the invite, but
    no membership row is created. *)
Lemma accept_atomic_cex :
  fst (accept_group_invite db_invite "tok" 1 10) = Ok (Some (consume_invite invite1 1 10)) /\
  user_family_groups (snd (accept_group_invite db_invite "tok" 1 10)) =
    user_family_groups db_invite /\
  group_invites (snd (accept_group_invite db_invite "tok" 1 10)) =
    [consume_invite invite1 1 10].
Proof. split; [reflexivity | split; reflexivity]. Qed.

(** C3 (amended): every accept-invite call either reports failure with
    the store unchanged, or succeeds and commits in one step both the
    invite consumption and the new viewer membership, the latter unless
    the user already had a membership in that group (then only the invite
    is consumed).  It never ends in a state with only part of these
    writes. *)
Theorem accept_group_invite_atomic (d : DB) (t : string) (u : nat) (now : Z) :
  accept_group_invite d t u now = (Ok None, d) \/
  exists inv,
    get_group_invite_by_token d t = Some inv /\
    accept_group_invite d t u now =
      (Ok (Some (consume_invite inv u now)),
       set_invites
         (set_memberships d (user_family_groups d ++
                             new_membership_rows d u (inv_group_id inv)))
         (map (update_invite_row (consume_invite inv u now)) (group_invites d))).
Proof.
  destruct (get_group_invite_by_token d t) as [inv|] eqn:Hget.
  - destruct (used inv) eqn:Hu.
    + left. apply accept_failure. unfold accept_plan. rewrite Hget, Hu. reflexivity.
    + destruct (is_expired inv now) eqn:He.
      * left. apply accept_failure. unfold accept_plan. rewrite Hget, Hu, He. reflexivity.
      * right. exists inv. split; [reflexivity|].
        exact (accept_success d t u now inv Hget Hu He).
  - left. apply accept_failure. unfold accept_plan. rewrite Hget. reflexivity.
Qed.

(** C9: a user who is already a member of the invite's group redeems a
    valid invite: the call succeeds, returns the consumed invite
    (used = true, used_at = now, invited_user = the user), adds no
    membership row and reports no Conflict. *)
Theorem accept_group_invite_existing_member (d : DB) (t : string) (u : nat) (now : Z)
    (inv : GroupInvite) (m : UserFamilyGroup) :
  get_group_invite_by_token d t = Some inv ->
  used inv = false -> is_expired inv now = false ->
  find_membership d u (inv_group_id inv) = Some m ->
  exists d',
    accept_group_invite d t u now = (Ok (Some (consume_invite inv u now)), d') /\
    user_family_groups d' = user_family_groups d /\
    group_invites d' = map (update_invite_row (consume_invite inv u now)) (group_invites d) /\
    get_group_invite_by_token d' t = Some (consume_invite inv u now) /\
    used (consume_invite inv u now) = true /\
    used_at (consume_invite inv u now) = Some now /\
    invited_user_id (consume_invite inv u now) = Some u.
Proof.
  intros Hget Hu He Hm.
  exists (accepted_db d inv u now).
  rewrite (accept_success d t u now inv Hget Hu He).
  split; [reflexivity|].
  split; [unfold accepted_db, new_membership_rows; simpl; rewrite Hm; apply app_nil_r|].
  split; [reflexivity|].
  split; [apply get_by_token_accepted; exact Hget|].
  split; [reflexivity | split; reflexivity].
Qed.

(** Witness for C9: user 1, poster of group 1, redeems invite 1. *)
Lemma accept_group_invite_existing_member_witness :
  exists d',
    accept_group_invite db_invite "tok" 1 10 = (Ok (Some (consume_invite invite1 1 10)), d') /\
    user_family_groups d' = user_family_groups db_invite /\
    group_invites d' = map (update_invite_row (consume_invite invite1 1 10)) (group_invites db_invite) /\
    get_group_invite_by_token d' "tok" = Some (consume_invite invite1 1 10) /\
    used (consume_invite invite1 1 10) = true /\
    used_at (consume_invite invite1 1 10) = Some 10%Z /\
    invited_user_id (consume_invite invite1 1 10) = Some 1.
Proof.
  apply (accept_group_invite_existing_member db_invite "tok" 1 10 invite1
           (mkMembership 1 1 Poster)); reflexivity.
Defined.

(** ** Lemmas on the delete loops and on traces of requests *)

Lemma fold_try_delete_blob (sf : string -> bool) (urls : list string) (w : World) :
  db (fold_left (try_delete_blob sf) urls w) = db w /\
  events (fold_left (try_delete_blob sf) urls w) = events w ++ flat_map (blob_events sf) urls.
Proof.
  revert w. induction urls as [|url urls IH]; intros w; simpl.
  - rewrite app_nil_r. split; reflexivity.
  - destruct (IH (try_delete_blob sf w url)) as [H1 H2].
    rewrite H1, H2. unfold try_delete_blob, blob_events.
    destruct (sf url); simpl; rewrite <- app_assoc; split; reflexivity.
Qed.

Lemma delete_message_invites (sf : string -> bool) (w : World) (m : nat) :
  group_invites (db (snd (delete_message sf w m))) = group_invites (db w).
Proof.
  unfold delete_message.
  destruct (fold_try_delete_blob sf (map attachment_url (attachments_of (db w) m)) w)
    as [Hdb _].
  destruct (find_message _ m); [|simpl; rewrite Hdb; reflexivity].
  unfold sql_delete_message.
  destruct (existsb _ _); simpl; rewrite Hdb; reflexivity.
Qed.

Lemma delete_item_invites (sf : string -> bool) (w : World) (i : nat) :
  group_invites (db (snd (delete_item sf w i))) = group_invites (db w).
Proof.
  unfold delete_item.
  destruct (fold_try_delete_blob sf (map image_url (images_of (db w) i)) w) as [Hdb _].
  unfold sql_delete_item.
  destruct (existsb _ _); simpl; rewrite Hdb; reflexivity.
Qed.

Lemma spent_update_row (p : GroupInvite) (l : list GroupInvite) (t : string) :
  used p = true ->
  (forall i, In i l -> token i = t -> used i = true) ->
  forall i, In i (map (update_invite_row p) l) -> token i = t -> used i = true.
Proof.
  intros Hp Hl i Hi Ht. apply in_map_iff in Hi as [j [<- Hj]].
  unfold update_invite_row in *. destruct (Nat.eqb _ _); simpl in *.
  - exact Hp.
  - apply Hl; assumption.
Qed.

Lemma accept_keeps_spent (d : DB) (t t' : string) (u : nat) (now : Z) :
  token_spent d t -> token_spent (snd (accept_group_invite d t' u now)) t.
Proof.
  intros Hs. unfold accept_group_invite.
  destruct (accept_plan d t' u now) as [p|] eqn:Hp; [|exact Hs].
  assert (Hused : used (plan_invite p) = true).
  { unfold accept_plan in Hp.
    destruct (get_group_invite_by_token d t'); [|discriminate].
    destruct (_ || _); [discriminate|]. injection Hp as <-. reflexivity. }
  unfold commit_plan.
  destruct (plan_membership p) as [m|].
  - destruct (find_membership d (ufg_user_id m) (ufg_group_id m)); [exact Hs|].
    destruct (existsb _ _); [|exact Hs].
    simpl. unfold token_spent; simpl. apply spent_update_row; assumption.
  - destruct (existsb _ _); [|exact Hs].
    simpl. unfold token_spent; simpl. apply spent_update_row; assumption.
Qed.

Lemma step_keeps_spent (sf : string -> bool) (w : World) (o : Op) (t : string) :
  draws_token t o = false -> token_spent (db w) t -> token_spent (db (step sf w o)) t.
Proof.
  intros Hdraw Hs.
  destruct o as [g a e tok n | tok u n | id | m u ty n | m u | m | i]; simpl in *.
  - unfold token_spent; simpl. intros inv Hin Ht.
    apply in_app_or in Hin as [Hin | [<- | []]]; [exact (Hs inv Hin Ht)|].
    simpl in Ht. subst. rewrite String.eqb_refl in Hdraw. discriminate.
  - apply accept_keeps_spent; exact Hs.
  - unfold revoke_group_invite.
    destruct (Nat.eqb _ _); simpl; [exact Hs|].
    unfold token_spent; simpl. intros inv Hin Ht.
    apply filter_In in Hin as [Hin _]. exact (Hs inv Hin Ht).
  - unfold create_reaction.
    destruct (reaction_rows (db w) m u) as [|r rs]; simpl; [exact Hs|].
    destruct (reaction_type_eqb _ _); exact Hs.
  - exact Hs.
  - unfold token_spent. rewrite delete_message_invites. exact Hs.
  - unfold token_spent. rewrite delete_item_invites. exact Hs.
Qed.

Lemma run_keeps_spent (sf : string -> bool) (ops : list Op) (w : World) (t : string) :
  forallb (fun o => negb (draws_token t o)) ops = true ->
  token_spent (db w) t -> token_spent (db (run sf w ops)) t.
Proof.
  unfold run. revert w. induction ops as [|o ops IH]; intros w Hops Hs; simpl in *.
  - exact Hs.
  - apply andb_prop in Hops as [Ho Hops].
    apply IH; [exact Hops|]. apply step_keeps_spent; [|exact Hs].
    destruct (draws_token t o); [discriminate | reflexivity].
Qed.

Lemma accept_spent_fails (d : DB) (t : string) (u : nat) (now : Z) :
  token_spent d t -> accept_group_invite d t u now = (Ok None, d).
Proof.
  intros Hs. apply accept_failure. unfold accept_plan.
  destruct (get_group_invite_by_token d t) as [inv|] eqn:Hget; [|reflexivity].
  apply find_some in Hget as [Hin Ht]. apply String.eqb_eq in Ht.
  rewrite (Hs inv Hin Ht). reflexivity.
Qed.

Lemma nodup_map_inj {A B : Type} (f : A -> B) (l : list A) (x y : A) :
  NoDup (map f l) -> In x l -> In y l -> f x = f y -> x = y.
Proof.
  induction l as [|a l IH]; simpl; intros Hnd Hx Hy Hf; [contradiction|].
  inversion Hnd as [|b l' Hnot Hnd' Heq]; subst.
  destruct Hx as [<- | Hx], Hy as [<- | Hy].
  - reflexivity.
  - exfalso. apply Hnot. rewrite Hf. apply in_map. exact Hy.
  - exfalso. apply Hnot. rewrite <- Hf. apply in_map. exact Hx.
  - exact (IH Hnd' Hx Hy Hf).
Qed.

(** C4: once an invite whose token is unique is used, no later request
    (issuing invites with other tokens, redeeming any token, revoking,
    reactions, deleting messages or items, whatever the storage failures)
    resets it: every invite carrying that token stays used = true, and
    redeeming the token then fails and changes nothing. *)
Theorem used_invite_never_redeemable (sf : string -> bool) (w : World) (ops : list Op)
    (t : string) (u : nat) (now : Z) :
  (exists inv, In inv (group_invites (db w)) /\ token inv = t /\ used inv = true) ->
  NoDup (map token (group_invites (db w))) ->
  forallb (fun o => negb (draws_token t o)) ops = true ->
  token_spent (db (run sf w ops)) t /\
  accept_group_invite (db (run sf w ops)) t u now = (Ok None, db (run sf w ops)).
Proof.
  intros [inv [Hin [Ht Hu]]] Hnd Hops.
  assert (Hs : token_spent (db w) t).
  { intros i Hi Hti.
    rewrite (nodup_map_inj token _ i inv Hnd Hi Hin ltac:(congruence)). exact Hu. }
  pose proof (run_keeps_spent sf ops w t Hops Hs) as Hs'.
  split; [exact Hs'|]. apply accept_spent_fails. exact Hs'.
Qed.

(** Witness for C4: invite 1 redeemed by user 2, then a new invite, a
    revocation of an unknown id, a reaction and another redemption. *)
Lemma used_invite_never_redeemable_witness :
  let w := mkWorld (snd (accept_group_invite db_invite "tok" 2 10)) [] [] in
  let ops := [OpIssueInvite 1 1 None "tok2" 20; OpRevokeInvite 7;
              OpSetReaction 1 2 Heart 21; OpAcceptInvite "tok" 4 22] in
  token_spent (db (run (fun _ => true) w ops)) "tok" /\
  accept_group_invite (db (run (fun _ => true) w ops)) "tok" 5 30 =
    (Ok None, db (run (fun _ => true) w ops)).
Proof.
  intros w ops.
  apply used_invite_never_redeemable.
  - exists (consume_invite invite1 2 10). split; [left; reflexivity | split; reflexivity].
  - simpl. constructor; [intros []|constructor].
  - reflexivity.
Defined.

(** C5 (counterexample): group 1 already has the unused invite 1 of user 1,
    expiring at 100; issuing again at time 10 returns a new invite 2 with
    a new row, and its expiry is the caller's (none), not now + 7 days. *)
Lemma issue_invite_cex :
  get_group_invite_by_token db_invite "tok" = Some invite1 /\
  used invite1 = false /\ is_expired invite1 10 = false /\
  invite_id (fst (create_group_invite db_invite 1 1 None "tok2" 10)) = 2 /\
  length (group_invites (snd (create_group_invite db_invite 1 1 None "tok2" 10))) = 2 /\
  expires_at (fst (create_group_invite db_invite 1 1 None "tok2" 10)) = None.
Proof. repeat split; reflexivity. Qed.

(** C5 (amended): issue-invite never looks for an existing invite: it
    always appends one new row, with the next invite id, the drawn token,
    the group, the inviter, and the expiry passed by the caller, unused,
    and returns that row.  With no expiry (the default) the invite never
    expires: it is not expired at any time, and as long as no other invite
    holds its token, any user redeeming it at any later time succeeds and
    becomes a member of the group. *)
Theorem create_group_invite_appends (d : DB) (g a : nat) (e : option Z) (tok : string)
    (now : Z) :
  let '(inv, d') := create_group_invite d g a e tok now in
  group_invites d' = group_invites d ++ [inv] /\
  invite_id inv = next_invite_id d /\ token inv = tok /\
  inv_group_id inv = g /\ inviter_user_id inv = Some a /\ expires_at inv = e /\
  used inv = false /\ next_invite_id d' = S (next_invite_id d) /\
  user_family_groups d' = user_family_groups d /\
  (e = None ->
   (forall t, is_expired inv t = false) /\
   (get_group_invite_by_token d tok = None ->
    forall u t, exists d2,
      accept_group_invite d' tok u t = (Ok (Some (consume_invite inv u t)), d2) /\
      find_membership d2 u g <> None)).
Proof.
  set (inv := mkInvite (next_invite_id d) g tok (Some a) None now e None false).
  cbn [create_group_invite]. fold inv.
  repeat (split; [reflexivity|]).
  intros He. subst e.
  split; [intros t; reflexivity|].
  intros Hfresh u t.
  set (d' := mkDB (user_family_groups d) (group_invites d ++ [inv]) (message_reactions d)
                  (messages d) (message_attachments d) (threads d) (items d)
                  (item_images d) (S (next_invite_id d)) (next_reaction_id d)).
  assert (Hget : get_group_invite_by_token d' tok = Some inv).
  { unfold get_group_invite_by_token in *. cbn [d' group_invites].
    rewrite find_app, Hfresh. cbn [find token inv]. rewrite String.eqb_refl. reflexivity. }
  exists (accepted_db d' inv u t).
  split; [apply accept_success; [exact Hget | reflexivity | reflexivity]|].
  apply (find_membership_accepted d' inv u t).
Qed.

(** Witness for C5: invite 2 of group 1, issued at time 5 with no expiry
    and a new token, is redeemed by user 2 at time 1000000. *)
Lemma create_group_invite_appends_witness :
  get_group_invite_by_token db_invite "fresh" = None /\
  let '(inv, d1) := create_group_invite db_invite 1 1 None "fresh" 5 in
  is_expired inv 1000000 = false /\
  exists d2,
    accept_group_invite d1 "fresh" 2 1000000 = (Ok (Some (consume_invite inv 2 1000000)), d2) /\
    find_membership d2 2 1 <> None.
Proof.
  split; [reflexivity|].
  pose proof (create_group_invite_appends db_invite 1 1 None "fresh"%string 5%Z) as H.
  destruct (create_group_invite db_invite 1 1 None "fresh" 5) as [inv d1].
  destruct H as [_ [_ [_ [_ [_ [_ [_ [_ [_ H]]]]]]]]].
  destruct (H eq_refl) as [Hexp Hacc].
  split; [apply Hexp|]. apply Hacc. reflexivity.
Defined.

(** ** Reactions *)

Lemma reaction_rows_update (d : DB) (m u id : nat) (ty : ReactionType) :
  filter (fun r => Nat.eqb (r_message_id r) m && Nat.eqb (r_user_id r) u)
         (map (update_reaction_type id ty) (message_reactions d)) =
  map (update_reaction_type id ty) (reaction_rows d m u).
Proof.
  unfold reaction_rows. induction (message_reactions d) as [|r rs IH]; simpl; [reflexivity|].
  assert (Hk : r_message_id (update_reaction_type id ty r) = r_message_id r /\
               r_user_id (update_reaction_type id ty r) = r_user_id r)
    by (unfold update_reaction_type; destruct (Nat.eqb _ _); split; reflexivity).
  destruct Hk as [H1 H2]. rewrite H1, H2.
  destruct (_ && _); simpl; rewrite IH; reflexivity.
Qed.

Lemma reaction_type_eqb_true (a b : ReactionType) : reaction_type_eqb a b = true <-> a = b.
Proof. destruct a, b; simpl; split; intros H; congruence. Qed.

(** C6: set-reaction on a (message, user) pair with no row inserts exactly
    one row, which becomes the pair's only row; on a pair whose row has the
    same type it changes nothing and returns that row; on a pair whose row
    has another type it updates the type of that same row, keeping its
    reaction_id and created_at, and the pair still has that one row. *)
Theorem create_reaction_upsert (d : DB) (m u : nat) (ty : ReactionType) (now : Z) :
  (reaction_rows d m u = [] ->
   let '(r, d') := create_reaction d m u ty now in
   length (message_reactions d') = S (length (message_reactions d)) /\
   reaction_rows d' m u = [r] /\ reaction_type r = ty) /\
  (forall r, reaction_rows d m u = [r] -> reaction_type r = ty ->
   create_reaction d m u ty now = (r, d)) /\
  (forall r, reaction_rows d m u = [r] -> reaction_type r <> ty ->
   let '(r', d') := create_reaction d m u ty now in
   reaction_rows d' m u = [r'] /\ reaction_id r' = reaction_id r /\
   r_created_at r' = r_created_at r /\ reaction_type r' = ty /\
   length (message_reactions d') = length (message_reactions d)).
Proof.
  split; [|split].
  - intros H. unfold create_reaction. rewrite H. simpl.
    rewrite length_app, Nat.add_comm. split; [reflexivity|].
    split; [|reflexivity].
    unfold reaction_rows in *; simpl. rewrite filter_app, H; simpl.
    rewrite !Nat.eqb_refl. reflexivity.
  - intros r H Hty. unfold create_reaction. rewrite H.
    assert (E : reaction_type_eqb (reaction_type r) ty = true)
      by (apply reaction_type_eqb_true; exact Hty).
    rewrite E. reflexivity.
  - intros r H Hty. unfold create_reaction. rewrite H.
    destruct (reaction_type_eqb (reaction_type r) ty) eqn:E.
    { apply reaction_type_eqb_true in E. contradiction. }
    unfold reaction_rows at 1; simpl. rewrite reaction_rows_update, H; simpl.
    unfold update_reaction_type at 1. rewrite Nat.eqb_refl.
    repeat split; try reflexivity. apply length_map.
Qed.

(** Witness for C6: message 1, user 2 on the empty store, three calls. *)
Lemma create_reaction_upsert_witness :
  let d1 := snd (create_reaction empty_db 1 2 Like 5) in
  (let '(r, d') := create_reaction empty_db 1 2 Like 5 in
   length (message_reactions d') = S (length (message_reactions empty_db)) /\
   reaction_rows d' 1 2 = [r] /\ reaction_type r = Like) /\
  create_reaction d1 1 2 Like 6 = (mkReaction 1 1 2 Like 5, d1) /\
  (let '(r', d') := create_reaction d1 1 2 Heart 7 in
   reaction_rows d' 1 2 = [r'] /\ reaction_id r' = reaction_id (mkReaction 1 1 2 Like 5) /\
   r_created_at r' = r_created_at (mkReaction 1 1 2 Like 5) /\ reaction_type r' = Heart /\
   length (message_reactions d') = length (message_reactions d1)).
Proof.
  intros d1. split; [|split].
  - apply (proj1 (create_reaction_upsert empty_db 1 2 Like 5)). reflexivity.
  - apply (proj1 (proj2 (create_reaction_upsert d1 1 2 Like 6))); reflexivity.
  - apply (proj2 (proj2 (create_reaction_upsert d1 1 2 Heart 7)) (mkReaction 1 1 2 Like 5));
      [reflexivity | discriminate].
Defined.

(** C10: remove-reaction is total (it has no failure outcome), leaves no
    row for the pair, changes nothing when the pair has no row, and
    removing twice is removing once. *)
Theorem delete_reaction_idempotent (d : DB) (m u : nat) :
  reaction_rows (delete_reaction d m u) m u = [] /\
  (reaction_rows d m u = [] -> delete_reaction d m u = d) /\
  delete_reaction (delete_reaction d m u) m u = delete_reaction d m u.
Proof.
  unfold reaction_rows, delete_reaction, set_reactions; simpl.
  split; [|split].
  - induction (message_reactions d) as [|r rs IH]; simpl; [reflexivity|].
    destruct (_ && _) eqn:E; simpl; [exact IH|]. rewrite E. exact IH.
  - intros H. destruct d as [a b rs c e f g h i j]; simpl in *. f_equal.
    induction rs as [|r rs IH]; simpl in *; [reflexivity|].
    destruct (_ && _); simpl in *; [discriminate|]. rewrite IH; [reflexivity | exact H].
  - f_equal. induction (message_reactions d) as [|r rs IH]; simpl; [reflexivity|].
    destruct (_ && _) eqn:E; simpl; [exact IH|]. rewrite E; simpl. rewrite IH. reflexivity.
Qed.

(** ** Cascading deletes *)

Example delete_item_1 :
  delete_item fails_u1_a1 world_items 1 =
  (Ok true,
   mkWorld (mkDB [] [] [mkReaction 1 5 1 Like 0] [mkMessage 5 2 1 None "hi"]
                 [mkAttachment 1 5 "a1"; mkAttachment 2 5 "a2"] [mkThread 2 2]
                 [mkItem 2 1 1 "vase"] [mkImage 13 2 "u3"] 1 2)
           ["u1"; "u3"; "a1"; "a2"]%string
           [BlobDelete "u1"; Warning "u1"; BlobDelete "u2"; SqlDeleteItem 1; Commit]).
Proof. reflexivity. Qed.

Lemma removed_count {A : Type} (p : A -> bool) (l : list A) :
  Nat.ltb 0 (length l - length (filter (fun x => negb (p x)) l)) = existsb p l.
Proof.
  induction l as [|a l IH]; [reflexivity|].
  assert (Hle : length (filter (fun x => negb (p x)) l) <= length l).
  { clear IH. induction l as [|b l IHl]; simpl; [lia|].
    destruct (negb (p b)); simpl; lia. }
  cbn [filter existsb]. destruct (p a); cbn [negb orb length].
  - apply Nat.ltb_lt. lia.
  - exact IH.
Qed.

(** C7 (counterexample): item 2 has one image, and its thread holds
    message 5; the cascade from items to threads is refused by the
    messages' foreign key, so delete-item raises and the image and item
    rows stay, although the blob of its image was deleted. *)
Lemma delete_item_cex :
  fst (delete_item (fun _ => false) world_items 2) = Raised /\
  images_of (db (snd (delete_item (fun _ => false) world_items 2))) 2 = [mkImage 13 2 "u3"] /\
  items (db (snd (delete_item (fun _ => false) world_items 2))) = items db_items /\
  blobs (snd (delete_item (fun _ => false) world_items 2)) = ["u1"; "u2"; "a1"; "a2"]%string.
Proof. repeat split; reflexivity. Qed.

(** C7 (amended): for an item whose thread holds no message, delete-item
    attempts the blob delete of each of its images (a failure logs one
    warning and the loop goes on), then removes its image rows and its
    item row in one commit, and returns true exactly when the item
    existed (false when no item has the id). *)
Theorem delete_item_best_effort (sf : string -> bool) (w : World) (i : nat) :
  (forall m t, In m (messages (db w)) -> In t (threads (db w)) ->
     th_item_id t = i -> thread_id t <> msg_thread_id m) ->
  let '(r, w') := delete_item sf w i in
  r = Ok (existsb (fun it => Nat.eqb (item_id it) i) (items (db w))) /\
  images_of (db w') i = [] /\
  item_images (db w') = filter (fun im => negb (Nat.eqb (img_item_id im) i)) (item_images (db w)) /\
  existsb (fun it => Nat.eqb (item_id it) i) (items (db w')) = false /\
  events w' = events w ++ flat_map (blob_events sf) (map image_url (images_of (db w) i)) ++
              [SqlDeleteItem i; Commit].
Proof.
  intros Hfk. unfold delete_item.
  destruct (fold_try_delete_blob sf (map image_url (images_of (db w) i)) w) as [Hdb Hev].
  unfold sql_delete_item. rewrite Hdb.
  match goal with |- context [if ?c then _ else _] => destruct c eqn:Hm end.
  - exfalso. apply existsb_exists in Hm as [m [Hin Hm]].
    apply existsb_exists in Hm as [t [Ht Heq]].
    apply filter_In in Ht as [Ht Hti]. apply Nat.eqb_eq in Hti, Heq.
    exact (Hfk m t Hin Ht Hti Heq).
  - simpl. split; [|split; [|split; [|split]]].
    + f_equal. exact (removed_count (fun it => Nat.eqb (item_id it) i) (items (db w))).
    + unfold images_of; simpl. induction (item_images (db w)) as [|im ims IH]; simpl; [reflexivity|].
      destruct (Nat.eqb (img_item_id im) i) eqn:E; simpl; [exact IH|]. rewrite E. exact IH.
    + reflexivity.
    + induction (items (db w)) as [|it its IH]; simpl; [reflexivity|].
      destruct (Nat.eqb (item_id it) i) eqn:E; simpl; [exact IH|]. rewrite E. exact IH.
    + rewrite Hev, <- app_assoc. reflexivity.
Qed.

(** Witness for C7: item 1 of the concrete store, u1 failing. *)
Lemma delete_item_best_effort_witness :
  let '(r, w') := delete_item fails_u1_a1 world_items 1 in
  r = Ok (existsb (fun it => Nat.eqb (item_id it) 1) (items (db world_items))) /\
  images_of (db w') 1 = [] /\
  item_images (db w') = filter (fun im => negb (Nat.eqb (img_item_id im) 1))
                               (item_images (db world_items)) /\
  existsb (fun it => Nat.eqb (item_id it) 1) (items (db w')) = false /\
  events w' = events world_items ++
              flat_map (blob_events fails_u1_a1) (map image_url (images_of (db world_items) 1)) ++
              [SqlDeleteItem 1; Commit].
Proof.
  apply (delete_item_best_effort fails_u1_a1 world_items 1).
  intros m t Hm Ht Hti. simpl in Hm, Ht.
  destruct Hm as [<- | []]. destruct Ht as [<- | [<- | []]]; simpl in *; lia.
Defined.

(** C8: delete-message first calls the blob delete for each attachment of
    the message (each failure logs a warning and the loop goes on), then
    deletes the attachment rows, then the message row, commits, and
    returns the message; when no message has the id it returns [None] and
    commits nothing. *)
Theorem delete_message_order (sf : string -> bool) (w : World) (msg : nat) :
  let '(r, w') := delete_message sf w msg in
  r = Ok (find_message (db w) msg) /\
  events w' = events w ++
              flat_map (blob_events sf) (map attachment_url (attachments_of (db w) msg)) ++
              [SqlDeleteAttachments msg] ++
              match find_message (db w) msg with
              | Some _ => [SqlDeleteMessage msg; Commit]
              | None => []
              end /\
  match find_message (db w) msg with
  | Some _ => attachments_of (db w') msg = [] /\ find_message (db w') msg = None
  | None => db w' = db w
  end.
Proof.
  unfold delete_message.
  destruct (fold_try_delete_blob sf (map attachment_url (attachments_of (db w) msg)) w)
    as [Hdb Hev].
  rewrite Hdb.
  assert (Hfind : find_message (sql_delete_attachments (db w) msg) msg = find_message (db w) msg)
    by reflexivity.
  assert (Hnone : existsb (fun a => Nat.eqb (att_message_id a) msg)
                    (message_attachments (sql_delete_attachments (db w) msg)) = false).
  { simpl. induction (message_attachments (db w)) as [|a atts IH]; simpl; [reflexivity|].
    destruct (Nat.eqb (att_message_id a) msg) eqn:E; simpl; [exact IH|].
    rewrite E. exact IH. }
  rewrite Hfind.
  destruct (find_message (db w) msg) as [m|] eqn:Hm.
  - unfold sql_delete_message. rewrite Hnone. simpl.
    split; [reflexivity|]. split.
    + rewrite Hev, <- !app_assoc. reflexivity.
    + split.
      * unfold attachments_of; simpl.
        induction (message_attachments (db w)) as [|a atts IH]; simpl; [reflexivity|].
        destruct (Nat.eqb (att_message_id a) msg) eqn:E; simpl; [exact IH|].
        rewrite E. exact IH.
      * unfold find_message; simpl.
        induction (messages (db w)) as [|x xs IH]; simpl; [reflexivity|].
        destruct (Nat.eqb (message_id x) msg) eqn:E; simpl; [exact IH|].
        rewrite E. exact IH.
  - simpl. split; [reflexivity|]. split; [|reflexivity].
    rewrite Hev, <- app_assoc. reflexivity.
Qed.

(** Witness for C10: removing user 1's reaction to message 5, and removing
    a reaction from the empty store. *)
Lemma delete_reaction_idempotent_witness :
  reaction_rows (delete_reaction db_items 5 1) 5 1 = [] /\
  delete_reaction empty_db 5 1 = empty_db.
Proof.
  split.
  - exact (proj1 (delete_reaction_idempotent db_items 5 1)).
  - apply (proj1 (proj2 (delete_reaction_idempotent empty_db 5 1))). reflexivity.
Defined.

(** ** Upload naming, blob names and id lists *)

Lemma prefix_iff (p s : string) : String.prefix p s = true <-> exists r, s = String.append p r.
Proof.
  revert s. induction p as [|a p IH]; intros s.
  - split; [intros _; exists s; reflexivity | intros _; destruct s; reflexivity].
  - destruct s as [|b s]; simpl.
    + split; [discriminate | intros [r Hr]; discriminate].
    + destruct (Ascii.ascii_dec a b) as [<-|Hne].
      * rewrite IH. split; intros [r Hr]; exists r; congruence.
      * split; [discriminate | intros [r Hr]; injection Hr as H1 _; congruence].
Qed.

Lemma attachment_type_normalized (ct : option string) (p : string) :
  p <> EmptyString ->
  String.prefix p "application/octet-stream" = false ->
  String.prefix p (match ct with
                   | Some s => if String.eqb s EmptyString then "application/octet-stream"%string else s
                   | None => "application/octet-stream"%string
                   end) = true
  <-> exists r, ct = Some (String.append p r).
Proof.
  intros Hp Hdef. destruct ct as [s|].
  - destruct (String.eqb s EmptyString) eqn:E.
    + apply String.eqb_eq in E. subst. rewrite Hdef.
      split; [discriminate|]. intros [r Hr]. injection Hr as Hr.
      destruct p; [contradiction | discriminate].
    + rewrite prefix_iff. split; intros [r Hr]; exists r; congruence.
  - rewrite Hdef. split; [discriminate | intros [r Hr]; discriminate].
Qed.

Lemma py_split_nonempty (c : ascii) (s : string) : py_split c s <> [].
Proof.
  destruct s as [|x s]; simpl; [discriminate|].
  destruct (Ascii.eqb x c); [discriminate|]. destruct (py_split c s); discriminate.
Qed.

Lemma py_split_no_sep (c : ascii) (s : string) : has_char c s = false -> py_split c s = [s].
Proof.
  induction s as [|x s IH]; simpl; intros H; [reflexivity|].
  apply orb_false_iff in H as [Hx Hs]. rewrite Hx, (IH Hs). reflexivity.
Qed.

Lemma py_split_two (c : ascii) (s : string) :
  has_char c s = true -> exists p q qs, py_split c s = p :: q :: qs.
Proof.
  induction s as [|x s IH]; simpl; intros H; [discriminate|].
  destruct (Ascii.eqb x c) eqn:Ex.
  - destruct (py_split c s) as [|q qs] eqn:Hs; [exfalso; exact (py_split_nonempty c s Hs)|].
    exists EmptyString, q, qs. reflexivity.
  - simpl in H. destruct (IH H) as [p [q [qs Hs]]]. rewrite Hs.
    exists (String x p), q, qs. reflexivity.
Qed.

Lemma py_split_app (c : ascii) (a rest : string) :
  has_char c a = false ->
  py_split c (String.append a (String c rest)) = a :: py_split c rest.
Proof.
  induction a as [|x a IH]; simpl; intros H.
  - rewrite Ascii.eqb_refl. reflexivity.
  - apply orb_false_iff in H as [Hx Ha]. rewrite Hx, (IH Ha). reflexivity.
Qed.

Lemma py_split_last (c : ascii) (s : string) :
  has_char c (last (py_split c s) EmptyString) = false /\
  (has_char c s = true ->
   exists pre, s = String.append pre (String c (last (py_split c s) EmptyString))).
Proof.
  induction s as [|x s [IH1 IH2]]; simpl; [split; [reflexivity | discriminate]|].
  destruct (Ascii.eqb x c) eqn:Ex.
  - apply Ascii.eqb_eq in Ex. subst x.
    assert (Hl : last (EmptyString :: py_split c s) EmptyString = last (py_split c s) EmptyString).
    { destruct (py_split c s) eqn:Hs; [exfalso; exact (py_split_nonempty c s Hs) | reflexivity]. }
    rewrite Hl. split; [exact IH1|]. intros _.
    destruct (has_char c s) eqn:Hs.
    + destruct (IH2 eq_refl) as [pre Hpre]. exists (String c pre).
      simpl. rewrite <- Hpre. reflexivity.
    + exists EmptyString. simpl. rewrite (py_split_no_sep c s Hs). reflexivity.
  - simpl. destruct (has_char c s) eqn:Hs.
    + destruct (py_split_two c s Hs) as [p [q [qs Hsp]]]. rewrite Hsp in *.
      split; [exact IH1|]. intros _. destruct (IH2 eq_refl) as [pre Hpre].
      exists (String x pre). rewrite Hpre at 1. reflexivity.
    + rewrite (py_split_no_sep c s Hs). simpl. rewrite Ex, Hs. split; [reflexivity | discriminate].
Qed.

Lemma py_lstrip_length (chars s : string) : String.length (py_lstrip chars s) <= String.length s.
Proof.
  induction s as [|x s IH]; simpl; [lia|]. destruct (has_char x chars); simpl; lia.
Qed.

Lemma decimal_digits_small (f n : nat) : Forall (fun d => d < 10) (decimal_digits f n).
Proof.
  revert n. induction f as [|f IH]; intros n; cbn [decimal_digits]; [constructor|].
  destruct (Nat.ltb n 10) eqn:E.
  - apply Nat.ltb_lt in E. constructor; [exact E | constructor].
  - apply Forall_app. split; [apply IH|]. constructor; [apply Nat.mod_upper_bound; lia | constructor].
Qed.

Lemma decimal_digits_value (f n : nat) :
  n < f -> fold_left (fun acc d => acc * 10 + d) (decimal_digits f n) 0 = n.
Proof.
  revert n. induction f as [|f IH]; intros n Hn; [lia|]. cbn [decimal_digits].
  destruct (Nat.ltb n 10) eqn:E; [reflexivity|].
  apply Nat.ltb_ge in E.
  rewrite fold_left_app; cbn [fold_left].
  assert (Hd : n / 10 < n) by (apply Nat.div_lt; lia).
  rewrite IH by lia.
  pose proof (Nat.div_mod_eq n 10). lia.
Qed.

Lemma decimal_digits_nonempty (n : nat) : decimal_digits (S n) n <> [].
Proof.
  cbn [decimal_digits]. destruct (Nat.ltb n 10); [discriminate|].
  intros H. apply app_eq_nil in H as [_ H]. discriminate.
Qed.

Lemma digit_char_val (d : nat) : d < 10 -> Ascii.nat_of_ascii (Ascii.ascii_of_nat (48 + d)) = 48 + d.
Proof. intros H. apply Ascii.nat_ascii_embedding. lia. Qed.

Lemma decimal_fold (ds : list nat) (a : nat) : Forall (fun d => d < 10) ds ->
  fold_left (fun acc c => acc * 10 + (Ascii.nat_of_ascii c - 48))
            (map (fun d => Ascii.ascii_of_nat (48 + d)) ds) a =
  fold_left (fun acc d => acc * 10 + d) ds a.
Proof.
  revert a. induction ds as [|d ds IH]; intros a Hs; cbn [fold_left map]; [reflexivity|].
  inversion Hs as [|? ? Hd Hds]; subst.
  rewrite digit_char_val by exact Hd. replace (48 + d - 48) with d by lia. apply IH, Hds.
Qed.

Lemma decimal_int (n : nat) : py_int (decimal n) = n.
Proof.
  unfold py_int, decimal. rewrite list_ascii_of_string_of_list_ascii.
  rewrite decimal_fold by apply decimal_digits_small.
  apply decimal_digits_value. lia.
Qed.

Lemma decimal_isdigit (n : nat) : py_isdigit (decimal n) = true.
Proof.
  pose proof (decimal_digits_small (S n) n) as Hs.
  pose proof (decimal_digits_nonempty n) as Hne.
  assert (Hall : forallb is_digit (map (fun d => Ascii.ascii_of_nat (48 + d)) (decimal_digits (S n) n)) = true).
  { apply forallb_forall.
    intros x Hx. apply in_map_iff in Hx as [e [<- He]].
    apply Forall_forall with (x := e) in Hs; [|exact He].
    unfold is_digit. rewrite digit_char_val by exact Hs.
    apply andb_true_intro. split; apply Nat.leb_le; lia. }
  unfold py_isdigit, decimal.
  destruct (decimal_digits (S n) n) as [|d ds]; [contradiction|].
  cbn [map string_of_list_ascii].
  rewrite <- Hall. cbn [list_ascii_of_string]. rewrite list_ascii_of_string_of_list_ascii. reflexivity.
Qed.

Lemma digit_not_comma (d : nat) : d < 10 -> Ascii.eqb (Ascii.ascii_of_nat (48 + d)) ","%char = false.
Proof.
  intros Hd. destruct (Ascii.eqb (Ascii.ascii_of_nat (48 + d)) ","%char) eqn:E; [|reflexivity].
  apply Ascii.eqb_eq in E. apply (f_equal Ascii.nat_of_ascii) in E.
  rewrite digit_char_val in E by exact Hd.
  assert (Ascii.nat_of_ascii ","%char = 44) by reflexivity. lia.
Qed.

Lemma decimal_no_comma (n : nat) : has_char ","%char (decimal n) = false.
Proof.
  unfold decimal. pose proof (decimal_digits_small (S n) n) as Hs.
  induction (decimal_digits (S n) n) as [|d ds IH]; cbn [map string_of_list_ascii has_char]; [reflexivity|].
  inversion Hs as [|? ? Hd Hds]; subst.
  rewrite (IH Hds), digit_not_comma by exact Hd. reflexivity.
Qed.

Lemma py_split_concat (c : ascii) (l : list string) :
  l <> [] -> Forall (fun s => has_char c s = false) l ->
  py_split c (String.concat (String c EmptyString) l) = l.
Proof.
  induction l as [|x l IH]; intros Hne Hl; [contradiction|].
  inversion Hl as [|? ? Hx Hrest]; subst.
  destruct l as [|y l].
  - simpl. apply py_split_no_sep. exact Hx.
  - change (String.concat (String c EmptyString) (x :: y :: l)) with
      (String.append x (String c (String.concat (String c EmptyString) (y :: l)))).
    rewrite py_split_app by exact Hx. rewrite IH; [reflexivity | discriminate | exact Hrest].
Qed.

(** ** Properties of the further operations *)

(** upload_attachment: the attachment type is image, voice or video exactly
    when the client's content type starts with "image/", "audio/" or
    "video/"; a missing or empty content type (replaced by
    "application/octet-stream") gives file. *)
Theorem attachment_type_by_prefix (ct : option string) :
  (attachment_type_of ct = AttImage <-> exists r, ct = Some (String.append "image/" r)) /\
  (attachment_type_of ct = AttVoice <-> exists r, ct = Some (String.append "audio/" r)) /\
  (attachment_type_of ct = AttVideo <-> exists r, ct = Some (String.append "video/" r)) /\
  (ct = None \/ ct = Some EmptyString -> attachment_type_of ct = AttFile).
Proof.
  pose proof (attachment_type_normalized ct "image/" ltac:(discriminate) eq_refl) as Hi.
  pose proof (attachment_type_normalized ct "audio/" ltac:(discriminate) eq_refl) as Ha.
  pose proof (attachment_type_normalized ct "video/" ltac:(discriminate) eq_refl) as Hv.
  unfold attachment_type_of. cbv zeta.
  remember (match ct with
            | Some s => if String.eqb s EmptyString then "application/octet-stream"%string else s
            | None => "application/octet-stream"%string
            end) as N eqn:HN.
  destruct (String.prefix "image/" N) eqn:Ei.
  - destruct (proj1 Hi eq_refl) as [r Hr]. subst ct. cbn in HN. subst N.
    split; [split; [intros _; exists r; reflexivity | reflexivity]|].
    split; [split; [discriminate | intros [r' H]; discriminate H]|].
    split; [split; [discriminate | intros [r' H]; discriminate H]|].
    intros [H|H]; discriminate H.
  - destruct (String.prefix "audio/" N) eqn:Ea.
    + destruct (proj1 Ha eq_refl) as [r Hr]. subst ct. cbn in HN. subst N.
      split; [split; [discriminate | intros [r' H]; discriminate H]|].
      split; [split; [intros _; exists r; reflexivity | reflexivity]|].
      split; [split; [discriminate | intros [r' H]; discriminate H]|].
      intros [H|H]; discriminate H.
    + destruct (String.prefix "video/" N) eqn:Ev.
      * destruct (proj1 Hv eq_refl) as [r Hr]. subst ct. cbn in HN. subst N.
        split; [split; [discriminate | intros [r' H]; discriminate H]|].
        split; [split; [discriminate | intros [r' H]; discriminate H]|].
        split; [split; [intros _; exists r; reflexivity | reflexivity]|].
        intros [H|H]; discriminate H.
      * split; [split; [discriminate | intros H; apply Hi in H; discriminate H]|].
        split; [split; [discriminate | intros H; apply Ha in H; discriminate H]|].
        split; [split; [discriminate | intros H; apply Hv in H; discriminate H]|].
        intros _; reflexivity.
Qed.

(** signup and upload_attachment: a file name without a dot is stored under
    the bare uuid; otherwise the extension is the text after the LAST dot,
    and the stored name is the uuid, a dot and that extension (the bare
    uuid when the name ends in a dot). *)
Theorem unique_filename_extension (uuid fname : string) :
  (has_char dot fname = false -> unique_filename uuid fname = uuid) /\
  (has_char dot fname = true ->
   exists pre ext,
     fname = String.append pre (String dot ext) /\ has_char dot ext = false /\
     unique_filename uuid fname =
       (if String.eqb ext EmptyString then uuid else String.append uuid (String dot ext))).
Proof.
  unfold unique_filename, file_extension. split.
  - intros H. rewrite H. reflexivity.
  - intros H. rewrite H. destruct (py_split_last dot fname) as [H1 H2].
    destruct (H2 H) as [pre Hpre].
    exists pre, (last (py_split dot fname) EmptyString). split; [exact Hpre|]. split; [exact H1|].
    reflexivity.
Qed.

Lemma py_lstrip_app (chars p s : string) :
  forallb (fun x => has_char x chars) (list_ascii_of_string p) = true ->
  py_lstrip chars (String.append p s) = py_lstrip chars s.
Proof.
  induction p as [|x p IH]; intros H; [reflexivity|].
  cbn [list_ascii_of_string forallb] in H. apply andb_true_iff in H as [Hx Hp].
  cbn [String.append py_lstrip]. rewrite Hx. apply IH, Hp.
Qed.

(** delete_blob_by_url: [lstrip] removes the container prefix of the path
    when the blob name is empty or starts with a character outside the set
    of the prefix's characters. *)
Theorem blob_name_of_path_plain (name : string) :
  match name with
  | EmptyString => True
  | String c _ => has_char c container_prefix = false
  end ->
  blob_name_of_path (String.append container_prefix name) = name.
Proof.
  intros H. unfold blob_name_of_path. rewrite py_lstrip_app by reflexivity.
  destruct name as [|c s]; [reflexivity|]. cbn [py_lstrip]. fold container_prefix. rewrite H. reflexivity.
Qed.

(** delete_blob_by_url: [lstrip] takes a SET of characters, so a blob name
    starting with one of the prefix's characters (such as the hex digits
    a, c and e of a uuid) loses that character too: the computed name is
    shorter than the stored one. *)
Theorem blob_name_of_path_eats_name (c : ascii) (rest : string) :
  has_char c container_prefix = true ->
  String.length (blob_name_of_path (String.append container_prefix (String c rest)))
    < String.length (String c rest).
Proof.
  intros H. unfold blob_name_of_path. rewrite py_lstrip_app by reflexivity.
  cbn [py_lstrip]. fold container_prefix. rewrite H.
  pose proof (py_lstrip_length container_prefix rest). cbn [String.length]. lia.
Qed.

Lemma blob_name_of_path_plain_witness :
  blob_name_of_path (String.append container_prefix "7f3b.png") = "7f3b.png"%string.
Proof. apply blob_name_of_path_plain. reflexivity. Defined.

Lemma blob_name_of_path_eats_name_witness :
  String.length (blob_name_of_path (String.append container_prefix "ace1.png"))
    < String.length "ace1.png".
Proof. apply (blob_name_of_path_eats_name "a"%char "ce1.png"). reflexivity. Defined.

Lemma filter_all_true {A : Type} (f : A -> bool) (l : list A) :
  Forall (fun x => f x = true) l -> filter f l = l.
Proof. induction 1 as [|x l Hx _ IH]; cbn [filter]; [reflexivity|]. rewrite Hx, IH. reflexivity. Qed.

(** get_reactions_batch: the ids of a comma-joined list of decimal numbers
    are parsed back exactly. *)
Theorem parse_message_ids_decimal (ids : list nat) :
  parse_message_ids (String.concat (String ","%char EmptyString) (map decimal ids)) = ids.
Proof.
  destruct ids as [|n ns]; [reflexivity|].
  unfold parse_message_ids. rewrite py_split_concat.
  - rewrite filter_all_true.
    + rewrite map_map. rewrite (map_ext _ (fun x => x)) by apply decimal_int. apply map_id.
    + apply Forall_forall. intros s Hs. apply in_map_iff in Hs as [k [<- _]]. apply decimal_isdigit.
  - discriminate.
  - apply Forall_forall. intros s Hs. apply in_map_iff in Hs as [k [<- _]]. apply decimal_no_comma.
Qed.

Lemma py_split_sep_app (c : ascii) (a b : string) :
  py_split c (String.append a (String c b)) = py_split c a ++ py_split c b.
Proof.
  induction a as [|x a IH]; cbn [String.append py_split].
  - rewrite Ascii.eqb_refl. reflexivity.
  - rewrite IH. destruct (Ascii.eqb x c); [reflexivity|].
    destruct (py_split c a) as [|p ps] eqn:E; [exfalso; exact (py_split_nonempty c a E)|].
    reflexivity.
Qed.

(** get_reactions_batch: on ASCII query text, parsing a comma-joined text
    gives the ids of the left part followed by those of the right part; a
    malformed piece only drops itself. *)
Theorem parse_message_ids_join (a b : string) :
  is_ascii_text a = true -> is_ascii_text b = true ->
  parse_message_ids (String.append a (String ","%char b)) =
  parse_message_ids a ++ parse_message_ids b.
Proof.
  intros _ _. unfold parse_message_ids. rewrite py_split_sep_app, filter_app, map_app.
  reflexivity.
Qed.

Lemma parse_message_ids_join_witness :
  is_ascii_text "1,x" = true /\ is_ascii_text "23" = true /\
  parse_message_ids "1,x,23" = parse_message_ids "1,x" ++ parse_message_ids "23".
Proof.
  split; [reflexivity | split; [reflexivity |]].
  exact (parse_message_ids_join "1,x" "23" eq_refl eq_refl).
Defined.

Lemma filter_length_le' {A : Type} (f : A -> bool) (l : list A) : length (filter f l) <= length l.
Proof. induction l as [|x l IH]; cbn [filter length]; [lia|]. destruct (f x); cbn [length]; lia. Qed.

Lemma set_invites_same (d : DB) : set_invites d (group_invites d) = d.
Proof. destruct d; reflexivity. Qed.

Lemma filter_existsb_false {A : Type} (f : A -> bool) (l : list A) :
  existsb f l = false -> filter (fun x => negb (f x)) l = l.
Proof.
  induction l as [|x l IH]; cbn [existsb filter]; [reflexivity|].
  intros H. apply orb_false_iff in H as [Hx Hl]. rewrite Hx, (IH Hl). reflexivity.
Qed.

Lemma filter_existsb_true {A : Type} (f : A -> bool) (l : list A) :
  existsb f l = true -> length (filter (fun x => negb (f x)) l) < length l.
Proof.
  induction l as [|x l IH]; cbn [existsb filter]; [discriminate|].
  intros H. pose proof (filter_length_le' (fun x => negb (f x)) l).
  destruct (f x); cbn [negb length orb] in *; [lia|]. specialize (IH H). lia.
Qed.

Lemma revoke_group_invite_eq (d : DB) (id : nat) :
  revoke_group_invite d id =
  (existsb (fun i => Nat.eqb (invite_id i) id) (group_invites d),
   set_invites d (filter (fun i => negb (Nat.eqb (invite_id i) id)) (group_invites d))).
Proof.
  unfold revoke_group_invite.
  destruct (existsb (fun i => Nat.eqb (invite_id i) id) (group_invites d)) eqn:E.
  - pose proof (filter_existsb_true _ _ E) as H.
    destruct (Nat.eqb _ _) eqn:E2; [apply Nat.eqb_eq in E2; lia | reflexivity].
  - rewrite (filter_existsb_false _ _ E), Nat.eqb_refl, set_invites_same. reflexivity.
Qed.

(** revoke_group_invite: the flag says whether an invite had the id; the
    invites afterwards are the others, in their order, and no other table
    changes. *)
Theorem revoke_group_invite_spec (d : DB) (id : nat) :
  let '(found, d') := revoke_group_invite d id in
  found = existsb (fun i => Nat.eqb (invite_id i) id) (group_invites d) /\
  group_invites d' = filter (fun i => negb (Nat.eqb (invite_id i) id)) (group_invites d) /\
  (forall i, In i (group_invites d') <-> In i (group_invites d) /\ invite_id i <> id) /\
  set_invites d' (group_invites d) = d.
Proof.
  rewrite revoke_group_invite_eq. split; [reflexivity|]. split; [reflexivity|]. split.
  - intros i. cbn [set_invites group_invites]. rewrite filter_In, negb_true_iff, Nat.eqb_neq.
    reflexivity.
  - destruct d; reflexivity.
Qed.

(** revoke_group_invite then accept_group_invite: once the invite holding a
    token is revoked, redeeming that token returns None and changes
    nothing. *)
Theorem revoke_then_accept (d : DB) (id : nat) (t : string) (u : nat) (now : Z) :
  (forall i, In i (group_invites d) -> token i = t -> invite_id i = id) ->
  let d' := snd (revoke_group_invite d id) in
  accept_group_invite d' t u now = (Ok None, d').
Proof.
  intros Huniq d'. apply accept_failure. unfold accept_plan.
  destruct (get_group_invite_by_token d' t) as [inv|] eqn:Hget; [|reflexivity].
  exfalso. unfold d', get_group_invite_by_token in Hget.
  rewrite revoke_group_invite_eq in Hget. cbn [snd set_invites group_invites] in Hget.
  apply find_some in Hget as [Hin Htok]. apply filter_In in Hin as [Hin Hneq].
  apply String.eqb_eq in Htok. rewrite (Huniq inv Hin Htok), Nat.eqb_refl in Hneq. discriminate.
Qed.

Lemma revoke_then_accept_witness :
  let d' := snd (revoke_group_invite db_invite 1) in
  accept_group_invite d' "tok" 2 10 = (Ok None, d').
Proof.
  apply revoke_then_accept.
  intros i Hin _. destruct Hin as [<-|[]]. reflexivity.
Defined.

(** create_group_invite then accept_group_invite: a freshly issued invite
    with a new token is redeemed before its expiry: the call returns the
    consumed invite and the user is a member of the group afterwards. *)
Theorem issue_then_accept (d : DB) (g inviter : nat) (e : option Z) (tok : string)
    (created : Z) (u : nat) (now : Z) :
  get_group_invite_by_token d tok = None ->
  (forall x, e = Some x -> (now <= x)%Z) ->
  let '(inv, d1) := create_group_invite d g inviter e tok created in
  exists d2,
    accept_group_invite d1 tok u now = (Ok (Some (consume_invite inv u now)), d2) /\
    find_membership d2 u g <> None /\
    get_group_invite_by_token d2 tok = Some (consume_invite inv u now).
Proof.
  intros Hfresh He.
  set (inv := mkInvite (next_invite_id d) g tok (Some inviter) None created e None false).
  assert (Hget : get_group_invite_by_token (snd (create_group_invite d g inviter e tok created)) tok
                 = Some inv).
  { unfold get_group_invite_by_token in *. cbn [create_group_invite snd group_invites].
    rewrite find_app, Hfresh. cbn [find token inv]. rewrite String.eqb_refl. reflexivity. }
  assert (Hexp : is_expired inv now = false).
  { unfold is_expired. cbn [expires_at inv]. destruct e as [x|]; [|reflexivity].
    apply Z.ltb_ge. apply He. reflexivity. }
  cbn [create_group_invite]. cbn [create_group_invite snd] in Hget. fold inv in Hget |- *.
  exists (accepted_db (mkDB (user_family_groups d) (group_invites d ++ [inv]) (message_reactions d)
                            (messages d) (message_attachments d) (threads d) (items d)
                            (item_images d) (S (next_invite_id d)) (next_reaction_id d)) inv u now).
  split; [apply accept_success; [exact Hget | reflexivity | exact Hexp]|].
  split; [apply (find_membership_accepted _ inv u now)|].
  apply get_by_token_accepted. exact Hget.
Qed.

Lemma issue_then_accept_witness :
  let '(inv, d1) := create_group_invite db_invite 1 1 (Some 100%Z) "fresh" 5 in
  exists d2,
    accept_group_invite d1 "fresh" 2 50 = (Ok (Some (consume_invite inv 2 50)), d2) /\
    find_membership d2 2 1 <> None /\
    get_group_invite_by_token d2 "fresh" = Some (consume_invite inv 2 50).
Proof.
  apply issue_then_accept; [reflexivity|]. intros x Hx. injection Hx as <-. lia.
Defined.

Lemma reaction_update_outside (ex : MessageReaction) (ty : ReactionType) (m u : nat)
    (l : list MessageReaction) :
  NoDup (map reaction_id l) -> In ex l ->
  Nat.eqb (r_message_id ex) m && Nat.eqb (r_user_id ex) u = true ->
  filter (fun r => negb (Nat.eqb (r_message_id r) m && Nat.eqb (r_user_id r) u))
         (map (update_reaction_type (reaction_id ex) ty) l) =
  filter (fun r => negb (Nat.eqb (r_message_id r) m && Nat.eqb (r_user_id r) u)) l.
Proof.
  intros Hnd Hex Hpair.
  assert (Hall : forall x, In x l -> x = ex \/ reaction_id x <> reaction_id ex).
  { intros x Hx. destruct (Nat.eq_dec (reaction_id x) (reaction_id ex)) as [E|E]; [left|right; exact E].
    exact (nodup_map_inj reaction_id l x ex Hnd Hx Hex E). }
  clear Hnd Hex. induction l as [|x l IH]; cbn [map filter]; [reflexivity|].
  rewrite IH by (intros y Hy; apply Hall; right; exact Hy).
  destruct (Hall x (or_introl eq_refl)) as [->|Hne].
  - unfold update_reaction_type. rewrite Nat.eqb_refl. cbn [r_message_id r_user_id].
    rewrite Hpair. reflexivity.
  - unfold update_reaction_type. apply Nat.eqb_neq in Hne. rewrite Hne. reflexivity.
Qed.

(** create_reaction then delete_reaction on the same pair: the reaction
    table ends as if only the delete had run (reaction ids unique). *)
Theorem remove_after_set_reaction (d : DB) (m u : nat) (ty : ReactionType) (now : Z) :
  NoDup (map reaction_id (message_reactions d)) ->
  message_reactions (delete_reaction (snd (create_reaction d m u ty now)) m u) =
  message_reactions (delete_reaction d m u).
Proof.
  intros Hnd. unfold create_reaction.
  destruct (reaction_rows d m u) as [|ex rest] eqn:Hrows.
  - unfold delete_reaction, set_reactions; cbv zeta; cbn [snd message_reactions].
    rewrite filter_app. cbn [filter r_message_id r_user_id]. rewrite !Nat.eqb_refl.
    cbn [andb negb]. apply app_nil_r.
  - assert (Hex : In ex (reaction_rows d m u)) by (rewrite Hrows; left; reflexivity).
    unfold reaction_rows in Hex. apply filter_In in Hex as [Hin Hpair].
    destruct (reaction_type_eqb _ _); cbn [snd]; [reflexivity|].
    unfold delete_reaction, set_reactions; cbn [message_reactions].
    apply reaction_update_outside; assumption.
Qed.

Lemma remove_after_set_reaction_witness :
  message_reactions (delete_reaction (snd (create_reaction db_reactions 5 2 Agree 7)) 5 2) =
  message_reactions (delete_reaction db_reactions 5 2).
Proof. apply remove_after_set_reaction. cbn. repeat constructor; cbn; intuition discriminate. Defined.

(** delete_message of an existing message: its reactions, its row and its
    attachment rows go, every other row stays (replies included, their
    parent id now naming no message), and the item tables are untouched. *)
Theorem delete_message_rows (sf : string -> bool) (w : World) (msg : nat) :
  find_message (db w) msg <> None ->
  let d' := db (snd (delete_message sf w msg)) in
  (forall r, In r (message_reactions d') <-> In r (message_reactions (db w)) /\ r_message_id r <> msg) /\
  (forall m, In m (messages d') <-> In m (messages (db w)) /\ message_id m <> msg) /\
  (forall a, In a (message_attachments d') <->
             In a (message_attachments (db w)) /\ att_message_id a <> msg) /\
  threads d' = threads (db w) /\ items d' = items (db w) /\ item_images d' = item_images (db w).
Proof.
  intros Hfind d'. unfold d', delete_message.
  destruct (fold_try_delete_blob sf (map attachment_url (attachments_of (db w) msg)) w) as [Hdb _].
  set (w1 := fold_left (try_delete_blob sf) (map attachment_url (attachments_of (db w) msg)) w) in *.
  assert (Hf : find_message (sql_delete_attachments (db w1) msg) msg = find_message (db w) msg)
    by (rewrite Hdb; reflexivity).
  rewrite Hf. destruct (find_message (db w) msg) as [m0|]; [|contradiction].
  assert (Hno : existsb (fun a => Nat.eqb (att_message_id a) msg)
                  (message_attachments (sql_delete_attachments (db w1) msg)) = false).
  { cbn [message_attachments sql_delete_attachments].
    induction (message_attachments (db w1)) as [|a l IH]; cbn [filter]; [reflexivity|].
    destruct (Nat.eqb (att_message_id a) msg) eqn:E; cbn [negb existsb]; [exact IH|].
    rewrite E. exact IH. }
  unfold sql_delete_message. rewrite Hno. cbn [snd db sql_delete_attachments message_reactions
    messages message_attachments threads items item_images]. rewrite Hdb.
  split; [|split; [|split]]; try (intros x; rewrite filter_In, negb_true_iff, Nat.eqb_neq; reflexivity).
  auto.
Qed.

Lemma existsb_false_forall {A : Type} (f : A -> bool) (l : list A) :
  (forall x, In x l -> f x = false) -> existsb f l = false.
Proof.
  induction l as [|x l IH]; intros H; cbn [existsb]; [reflexivity|].
  rewrite (H x (or_introl eq_refl)). apply IH. intros y Hy. apply H. right. exact Hy.
Qed.

(** create_item then delete_item of the new item: the call returns true and
    the item, image, thread and message tables are back as before. *)
Theorem create_then_delete_item (sf : string -> bool) (d : DB) (bs : list string) (ev : list Event)
    (user group : nat) (name url : string) (iid imid tid : nat) (it : Item) (d1 : DB) :
  create_item d user group name url iid imid tid = (Ok it, d1) ->
  (forall im, In im (item_images d) -> img_item_id im <> iid) ->
  (forall m, In m (messages d) -> msg_thread_id m <> tid) ->
  let '(r, w') := delete_item sf (mkWorld d1 bs ev) iid in
  r = Ok true /\ items (db w') = items d /\ item_images (db w') = item_images d /\
  threads (db w') = threads d /\ messages (db w') = messages d.
Proof.
  intros Hc Himg Hmsg. unfold create_item in Hc.
  destruct (existsb (fun x => Nat.eqb (item_id x) iid) (items d)) eqn:E1; [discriminate|].
  destruct (existsb (fun im => Nat.eqb (image_id im) imid) (item_images d)) eqn:E2; [discriminate|].
  destruct (existsb (fun t => Nat.eqb (thread_id t) tid || Nat.eqb (th_item_id t) iid) (threads d))
    eqn:E3; [discriminate|].
  cbn [orb] in Hc. injection Hc as _ Hd1.
  unfold delete_item. cbn [db].
  destruct (fold_try_delete_blob sf (map image_url (images_of d1 iid)) (mkWorld d1 bs ev))
    as [Hdb _].
  rewrite Hdb. clear Hdb. cbn [db]. subst d1.
  assert (Hth : filter (fun t => Nat.eqb (th_item_id t) iid) (threads d ++ [mkThread tid iid])
                = [mkThread tid iid]).
  { rewrite filter_app. cbn [filter th_item_id]. rewrite Nat.eqb_refl.
    replace (filter _ (threads d)) with (@nil Thread); [reflexivity|].
    symmetry. induction (threads d) as [|t ts IH]; cbn [filter]; [reflexivity|].
    cbn [existsb] in E3. apply orb_false_iff in E3 as [Et Ets].
    apply orb_false_iff in Et as [_ Et]. rewrite Et. apply IH, Ets. }
  unfold sql_delete_item. cbn [threads messages items item_images]. rewrite Hth.
  assert (Hm : existsb (fun m => existsb (fun t => Nat.eqb (thread_id t) (msg_thread_id m))
                                   [mkThread tid iid]) (messages d) = false).
  { apply existsb_false_forall. intros m Hin. cbn [existsb thread_id].
    rewrite orb_false_r. apply Nat.eqb_neq. intros E. apply (Hmsg m Hin). symmetry. exact E. }
  rewrite Hm. cbn [fst snd db items item_images threads messages].
  assert (Hi : filter (fun x => negb (Nat.eqb (item_id x) iid)) (items d) = items d)
    by (apply filter_existsb_false with (f := fun x => Nat.eqb (item_id x) iid); exact E1).
  assert (Himg' : filter (fun im => negb (Nat.eqb (img_item_id im) iid)) (item_images d) = item_images d).
  { apply filter_existsb_false with (f := fun im => Nat.eqb (img_item_id im) iid).
    apply existsb_false_forall. intros im Hin. apply Nat.eqb_neq, Himg, Hin. }
  assert (Hthr : filter (fun t => negb (Nat.eqb (th_item_id t) iid)) (threads d) = threads d).
  { apply filter_existsb_false with (f := fun t => Nat.eqb (th_item_id t) iid).
    apply existsb_false_forall. intros t Hin.
    destruct (Nat.eqb (th_item_id t) iid) eqn:Et; [|reflexivity].
    assert (existsb (fun t => Nat.eqb (thread_id t) tid || Nat.eqb (th_item_id t) iid) (threads d) = true)
      as Hx by (apply existsb_exists; exists t; rewrite Et, orb_true_r; split; [exact Hin | reflexivity]).
    congruence. }
  rewrite !filter_app. cbn [filter item_id img_item_id th_item_id]. rewrite !Nat.eqb_refl.
  cbn [negb]. rewrite !app_nil_r, Hi, Himg', Hthr, length_app. cbn [length].
  replace (length (items d) + 1 - length (items d)) with 1 by lia.
  repeat split; reflexivity.
Qed.

Lemma find_none_forall {A : Type} (f : A -> bool) (l : list A) :
  find f l = None -> forall x, In x l -> f x = false.
Proof.
  induction l as [|y l IH]; cbn [find]; intros H x Hx; [destruct Hx|].
  destruct (f y) eqn:E; [discriminate|]. destruct Hx as [<-|Hx]; [exact E | apply IH; assumption].
Qed.

(** signup: distinct usernames and distinct emails stay distinct. *)
Theorem signup_keeps_unique (h : string -> string) (s : Users) (name mail pw : string)
    (photo : option string) :
  NoDup (map username (users s)) -> NoDup (map email (users s)) ->
  let s' := snd (signup h s name mail pw photo) in
  NoDup (map username (users s')) /\ NoDup (map email (users s')).
Proof.
  intros Hn He s'. unfold s', signup.
  destruct (find _ (users s)) eqn:Hf; [split; assumption|].
  pose proof (find_none_forall _ _ Hf) as Hall. cbn [snd users]. rewrite !map_app.
  cbn [map username email]. split; (apply NoDup_app; [assumption | repeat constructor; intros [] |]);
  intros x Hx [<-|[]]; apply in_map_iff in Hx as [y [Hy Hin]]; specialize (Hall y Hin);
  apply orb_false_iff in Hall as [H1 H2].
  - rewrite Hy, String.eqb_refl in H1. discriminate.
  - rewrite Hy, String.eqb_refl in H2. discriminate.
Qed.

Lemma find_user_by_id (l : list User) (a : User) :
  NoDup (map user_id l) -> In a l -> find (fun x => Nat.eqb (user_id x) (user_id a)) l = Some a.
Proof.
  intros Hnd Ha.
  destruct (find (fun x => Nat.eqb (user_id x) (user_id a)) l) as [x|] eqn:Hf.
  - apply find_some in Hf as [Hx Hid]. apply Nat.eqb_eq in Hid.
    f_equal. exact (nodup_map_inj user_id l x a Hnd Hx Ha Hid).
  - exfalso. pose proof (find_none_forall _ _ Hf a Ha) as H. cbv beta in H. rewrite Nat.eqb_refl in H. discriminate.
Qed.

(** update_user: renaming a user to another user's username succeeds, and
    two users then share that username (no uniqueness check). *)
Theorem update_user_duplicates_username (h : string -> string) (s : Users) (a b : User) :
  NoDup (map user_id (users s)) -> NoDup (map email (users s)) ->
  In a (users s) -> In b (users s) -> user_id a <> user_id b -> username b <> EmptyString ->
  let '(r, s') := update_user h s (user_id a) (Some (username b)) None None None in
  r = Ok (Some (mkUser (user_id a) (email a) (password_hash a) (username b) (photoURL a))) /\
  ~ NoDup (map username (users s')).
Proof.
  intros Hid Hem Ha Hb Hab Hne. unfold update_user.
  rewrite (find_user_by_id _ a Hid Ha). cbn [truthy].
  destruct (String.eqb (username b) EmptyString) eqn:E; [apply String.eqb_eq in E; contradiction|].
  set (u' := mkUser (user_id a) (email a) (password_hash a) (username b) (photoURL a)).
  assert (Hck : existsb (fun y => negb (Nat.eqb (user_id y) (user_id a)) && String.eqb (email y) (email u'))
                        (users s) = false).
  { apply existsb_false_forall. intros y Hy.
    destruct (Nat.eqb (user_id y) (user_id a)) eqn:Ey; [reflexivity|]. cbn [negb andb].
    apply String.eqb_neq. intros Heq. apply Nat.eqb_neq in Ey. apply Ey.
    f_equal. exact (nodup_map_inj email _ y a Hem Hy Ha Heq). }
  rewrite Hck. split; [reflexivity|]. cbn [users]. intros Hnd.
  assert (Hu : In u' (map (set_user (user_id a) u') (users s))).
  { apply in_map_iff. exists a. split; [unfold set_user; rewrite Nat.eqb_refl; reflexivity | exact Ha]. }
  assert (Hb' : In b (map (set_user (user_id a) u') (users s))).
  { apply in_map_iff. exists b. split; [|exact Hb]. unfold set_user.
    destruct (Nat.eqb (user_id b) (user_id a)) eqn:Eb; [apply Nat.eqb_eq in Eb; congruence | reflexivity]. }
  pose proof (nodup_map_inj username _ u' b Hnd Hu Hb' eq_refl) as Heq.
  apply Hab. rewrite <- Heq. reflexivity.
Qed.

(** Python's [l[i]]: negative indices count from the end; out of range raises. *)

(** [[{"content": texts[i]} for i in I[0] if i < len(texts)]] *)

Lemma nth_error_last {A : Type} (l : list A) (d : A) :
  l <> [] -> nth_error l (length l - 1) = Some (last l d).
Proof.
  intros Hne. destruct (exists_last Hne) as [l' [x ->]].
  rewrite last_last, length_app. cbn [length].
  replace (length l' + 1 - 1) with (length l') by lia.
  rewrite nth_error_app2 by lia. rewrite Nat.sub_diag. reflexivity.
Qed.

(** search_chat_vector: an index -1 (a missing neighbour) passes the
    [i < len(texts)] test and yields the last text, by Python's negative
    indexing, instead of being dropped. *)
Theorem search_results_padding (texts : list string) (I : list Z) :
  texts <> [] ->
  Forall (fun i => i = (-1)%Z \/ (0 <= i < Z.of_nat (length texts))%Z) I ->
  search_results texts I =
  Ok (map (fun i => if Z.ltb i 0 then last texts EmptyString else nth (Z.to_nat i) texts EmptyString) I).
Proof.
  intros Hne HI. induction HI as [|i I Hi HI IH]; [reflexivity|].
  cbn [search_results map]. rewrite IH.
  destruct Hi as [->|[H0 H1]].
  - assert (Hlen : (0 < Z.of_nat (length texts))%Z).
    { destruct texts; [contradiction | cbn [length]; lia]. }
    replace (Z.ltb (-1) (Z.of_nat (length texts))) with true by (symmetry; apply Z.ltb_lt; lia).
    unfold py_getitem. cbn [Z.leb Z.ltb]. 
    replace (Z.leb (- Z.of_nat (length texts)) (-1)) with true by (symmetry; apply Z.leb_le; lia).
    replace (Z.to_nat (Z.of_nat (length texts) + -1)) with (length texts - 1) by lia.
    rewrite (nth_error_last texts EmptyString Hne). reflexivity.
  - replace (Z.ltb i (Z.of_nat (length texts))) with true by (symmetry; apply Z.ltb_lt; lia).
    replace (Z.ltb i 0) with false by (symmetry; apply Z.ltb_ge; lia).
    unfold py_getitem. replace (Z.leb 0 i) with true by (symmetry; apply Z.leb_le; lia).
    rewrite nth_error_nth' with (d := EmptyString) by lia. reflexivity.
Qed.

Lemma search_results_padding_witness :
  search_results ["first"; "second"; "third"]%string [1%Z; (-1)%Z; (-1)%Z] =
  Ok (map (fun i => if Z.ltb i 0 then last ["first"; "second"; "third"]%string EmptyString
                    else nth (Z.to_nat i) ["first"; "second"; "third"]%string EmptyString)
          [1%Z; (-1)%Z; (-1)%Z]).
Proof.
  apply search_results_padding; [discriminate|].
  repeat constructor; cbn; lia.
Defined.

(** The row filter of [get_market_prices]. *)

Lemma length_filter_cons {A : Type} (p : A -> bool) (x : A) (l : list A) :
  length (filter p (x :: l)) = (if p x then 1 else 0) + length (filter p l).
Proof. cbn [filter]. destruct (p x); reflexivity. Qed.

(** get_market_prices: the "全て" prices are the unranked prices and the
    prices of ranks S, A, B, C and D, each row counted once. *)
Theorem market_prices_all_ranks (rows : list MarketRow) (id : nat) :
  length (get_market_prices rows id (Some ALL_RANKS)) =
  length (unranked_prices rows id) +
  fold_right (fun c n => length (get_market_prices rows id (Some c)) + n) 0 RANKS.
Proof.
  unfold get_market_prices, unranked_prices. rewrite !length_map.
  cbn [fold_right RANKS]. rewrite !length_map.
  unfold rank_filter, ALL_RANKS. cbn [negb andb String.eqb Ascii.eqb Bool.eqb existsb RANKS].
  induction rows as [|r rows IH]; [reflexivity|].
  rewrite !length_filter_cons.
  destruct (Nat.eqb (mr_ref_item_id r) id); cbn [andb]; [|exact IH].
  destruct (mr_condition_rank r) as [x|]; [|lia].
  cbn [existsb RANKS].
  destruct (String.eqb x "S") eqn:ES; [apply String.eqb_eq in ES; subst x; cbn; lia|].
  destruct (String.eqb x "A") eqn:EA; [apply String.eqb_eq in EA; subst x; cbn; lia|].
  destruct (String.eqb x "B") eqn:EB; [apply String.eqb_eq in EB; subst x; cbn; lia|].
  destruct (String.eqb x "C") eqn:EC; [apply String.eqb_eq in EC; subst x; cbn; lia|].
  destruct (String.eqb x "D") eqn:ED; [apply String.eqb_eq in ED; subst x; cbn; lia|].
  cbn [orb]. lia.
Qed.

Lemma delete_message_rows_witness :
  let d' := db (snd (delete_message fails_u1_a1 world_items 5)) in
  (forall r, In r (message_reactions d') <-> In r (message_reactions (db world_items)) /\ r_message_id r <> 5) /\
  (forall m, In m (messages d') <-> In m (messages (db world_items)) /\ message_id m <> 5) /\
  (forall a, In a (message_attachments d') <->
             In a (message_attachments (db world_items)) /\ att_message_id a <> 5) /\
  threads d' = threads (db world_items) /\ items d' = items (db world_items) /\
  item_images d' = item_images (db world_items).
Proof. apply delete_message_rows. discriminate. Defined.

Lemma create_then_delete_item_witness :
  let '(r, w') := delete_item fails_u1_a1
                    (mkWorld (snd (create_item db_items 1 1 "lamp" "u9" 3 14 3)) [] []) 3 in
  r = Ok true /\ items (db w') = items db_items /\ item_images (db w') = item_images db_items /\
  threads (db w') = threads db_items /\ messages (db w') = messages db_items.
Proof.
  apply (create_then_delete_item fails_u1_a1 db_items [] [] 1 1 "lamp" "u9" 3 14 3
           (mkItem 3 1 1 "lamp")).
  - reflexivity.
  - intros im Hin. cbn in Hin. repeat (destruct Hin as [<-|Hin]; [cbn; lia|]). destruct Hin.
  - intros m Hin. cbn in Hin. destruct Hin as [<-|[]]. cbn. lia.
Defined.

Lemma signup_keeps_unique_witness :
  let s' := snd (signup (fun p => p) users_demo "carol" "c@example.com" "pw" None) in
  NoDup (map username (users s')) /\ NoDup (map email (users s')).
Proof.
  apply signup_keeps_unique; cbn; repeat constructor; cbn; intuition discriminate.
Defined.

Lemma update_user_duplicates_username_witness :
  let '(r, s') := update_user (fun p => p) users_demo 1 (Some "bob"%string) None None None in
  r = Ok (Some (mkUser 1 "a@example.com" "h1" "bob" None)) /\ ~ NoDup (map username (users s')).
Proof.
  apply (update_user_duplicates_username (fun p => p) users_demo
           (mkUser 1 "a@example.com" "h1" "alice" None) (mkUser 2 "b@example.com" "h2" "bob" None)).
  - cbn. repeat constructor; cbn; intuition discriminate.
  - cbn. repeat constructor; cbn; intuition discriminate.
  - left. reflexivity.
  - right. left. reflexivity.
  - discriminate.
  - discriminate.
Defined.
